(** * Multi-shard media store: identifier codec, save routing and search

    A shallow embedding of [database/ia_filterdb.py]: the identifier codec
    ([encode_file_id], [encode_file_ref], [unpack_new_file_id]), the
    capacity-routed [save_file], the cross-shard queries
    [get_search_results], [get_bad_files] and [get_file_details], and of the
    remaining-time arithmetic of [plugins/Extra/premium.py].

    Conventions.
    - Python [int] is [Z]; [bytes] is a [list Z] of values in [0, 256);
      [str] is [string], its characters read as the code points 0 to 255.
    - A call that may raise returns a [PyResult]; only exceptions deriving
      from [Exception] are modelled, so [except Exception] catches all of
      them.
    - A collection is the list of its stored documents in natural
      (insertion) order, oldest first. *)

From Stdlib Require Import ZArith List Lia Bool Ascii String.
Import ListNotations.

Local Open Scope Z_scope.

(** ** Exceptions and results *)

Inductive Exn : Type :=
| DuplicateKeyError
| ValidationError
| ValueError
| StructError
| StoreError (msg : string)
| ReError
| OverflowError
| RecursionError
| UnknownFieldInDBError
| AttributeError.

Inductive PyResult (A : Type) : Type :=
| Return (a : A)
| Raise (e : Exn).

Arguments Return {A} a.
Arguments Raise {A} e.

Definition bind {A B : Type} (m : PyResult A) (k : A -> PyResult B) : PyResult B :=
  match m with
  | Return a => k a
  | Raise e => Raise e
  end.

Notation "x <- m ;; k" := (bind m (fun x => k))
  (at level 61, m at next level, right associativity).

(** ** Identifier codec *)

Module Codec.

(** The descriptor [FileId.decode] reads out of the upstream file id. *)
Record FileId : Type := {
  file_type : Z;
  dc_id : Z;
  media_id : Z;
  access_hash : Z;
  file_reference : list Z
}.

Definition is_byte (b : Z) : Prop := 0 <= b < 256.

(** [k] little-endian bytes of a non-negative value. *)
Fixpoint le_bytes (k : nat) (v : Z) : list Z :=
  match k with
  | O => []
  | S k' => v mod 256 :: le_bytes k' (v / 256)
  end.

(** One signed field of [struct.pack("<...")]: [k] bytes, two's complement,
    [struct.error] when the value does not fit. *)
Definition pack_signed (k : nat) (v : Z) : PyResult (list Z) :=
  let modulus := 2 ^ (8 * Z.of_nat k) in
  if (- (modulus / 2) <=? v) && (v <? modulus / 2)
  then Return (le_bytes k (v mod modulus))
  else Raise StructError.

(** [pack("<iiqq", a, b, c, d)]: no alignment, standard sizes 4, 4, 8, 8. *)
Definition pack_iiqq (a b c d : Z) : PyResult (list Z) :=
  ba <- pack_signed 4 a ;;
  bb <- pack_signed 4 b ;;
  bc <- pack_signed 8 c ;;
  bd <- pack_signed 8 d ;;
  Return (ba ++ bb ++ bc ++ bd).

(** [bytes([n])]: one byte, [ValueError] outside [range(256)]. *)
Definition bytes1 (n : Z) : PyResult (list Z) :=
  if (0 <=? n) && (n <? 256) then Return [n] else Raise ValueError.

(** The body of the [for] loop of [encode_file_id], over the remaining input,
    with the loop variables [n] (pending zeros) and [r] (output so far). *)
Fixpoint encode_loop (s : list Z) (n : Z) (r : list Z) : PyResult (list Z) :=
  match s with
  | [] => Return r
  | i :: s' =>
      if i =? 0 then encode_loop s' (n + 1) r
      else if n =? 0 then encode_loop s' n (r ++ [i])
      else
        b <- bytes1 n ;;
        encode_loop s' 0 ((r ++ ([0] ++ b)) ++ [i])
  end.

(** The URL-safe base64 alphabet. *)
Definition b64_alphabet : list ascii :=
  list_ascii_of_string
    "ABCDEFGHIJKLMNOPQRSTUVWXYZabcdefghijklmnopqrstuvwxyz0123456789-_".

Definition pad : ascii := "="%char.

Definition b64_char (i : Z) : ascii := nth (Z.to_nat i) b64_alphabet pad.

(** [base64.urlsafe_b64encode]: three bytes give four characters; a last
    group of one or two bytes is padded with [=]. *)
Fixpoint urlsafe_b64encode (bs : list Z) : list ascii :=
  match bs with
  | [] => []
  | [a] => [b64_char (a / 4); b64_char (a mod 4 * 16); pad; pad]
  | [a; b] =>
      [b64_char (a / 4); b64_char (a mod 4 * 16 + b / 16);
       b64_char (b mod 16 * 4); pad]
  | a :: b :: c :: rest =>
      b64_char (a / 4) :: b64_char (a mod 4 * 16 + b / 16)
      :: b64_char (b mod 16 * 4 + c / 64) :: b64_char (c mod 64)
      :: urlsafe_b64encode rest
  end.

(** [str.rstrip(c)] for a one-character argument. *)
Fixpoint rstrip (c : ascii) (s : list ascii) : list ascii :=
  match s with
  | [] => []
  | x :: t =>
      match rstrip c t with
      | [] => if Ascii.eqb x c then [] else [x]
      | t' => x :: t'
      end
  end.

Definition b64_nopad (bs : list Z) : string :=
  string_of_list_ascii (rstrip pad (urlsafe_b64encode bs)).

Definition encode_file_id (s : list Z) : PyResult string :=
  r <- encode_loop (s ++ [22] ++ [4]) 0 [] ;;
  Return (b64_nopad r).

Definition encode_file_ref (file_ref : list Z) : string :=
  b64_nopad file_ref.

(** [unpack_new_file_id], from the decoded descriptor on: the pair
    [(file_id, file_ref)]. *)
Definition unpack_new_file_id (decoded : FileId) : PyResult (string * string) :=
  packed <- pack_iiqq (file_type decoded) (dc_id decoded)
                      (media_id decoded) (access_hash decoded) ;;
  file_id <- encode_file_id packed ;;
  Return (file_id, encode_file_ref (file_reference decoded)).

End Codec.

(** ** Python string operations used by the store

    Characters are the code points 0 to 255; white space and letter case
    are Unicode's on that range. *)

Module PyStr.

Local Open Scope string_scope.

Definition code (c : ascii) : nat := nat_of_ascii c.

(** [c.isspace()]: tab to carriage return, the four separators 28..31, the
    space, next line (U+0085) and the no-break space (U+00A0). *)
Definition isspace (c : ascii) : bool :=
  let n := code c in
  ((9 <=? n) && (n <=? 13) || (28 <=? n) && (n <=? 32)
   || (n =? 133) || (n =? 160))%nat.

Fixpoint lstrip (s : string) : string :=
  match s with
  | EmptyString => EmptyString
  | String c t => if isspace c then lstrip t else s
  end.

Fixpoint rstrip (s : string) : string :=
  match s with
  | EmptyString => EmptyString
  | String c t =>
      match rstrip t with
      | EmptyString => if isspace c then EmptyString else String c EmptyString
      | t' => String c t'
      end
  end.

(** [s.strip()] *)
Definition strip (s : string) : string := rstrip (lstrip s).

(** [c in s] for a single character [c]. *)
Fixpoint has_char (c : ascii) (s : string) : bool :=
  match s with
  | EmptyString => false
  | String x t => Ascii.eqb x c || has_char c t
  end.

(** [s.replace(c, by)] for a single character [c]. *)
Fixpoint replace_char (c : ascii) (by_ : string) (s : string) : string :=
  match s with
  | EmptyString => EmptyString
  | String x t =>
      if Ascii.eqb x c then by_ ++ replace_char c by_ t
      else String x (replace_char c by_ t)
  end.

(** The capital letters: A to Z, and U+00C0 to U+00DE less the
    multiplication sign U+00D7. *)
Definition is_upper (c : ascii) : bool :=
  let n := code c in
  ((65 <=? n) && (n <=? 90) || (192 <=? n) && (n <=? 222) && negb (n =? 215))%nat.

Definition lower_char (c : ascii) : ascii :=
  if is_upper c then ascii_of_nat (code c + 32) else c.

(** [s.lower()] *)
Fixpoint lower (s : string) : string :=
  match s with
  | EmptyString => EmptyString
  | String c t => String (lower_char c) (lower t)
  end.

(** [sub in s] *)
Fixpoint contains (sub s : string) : bool :=
  String.prefix sub s
  || match s with
     | EmptyString => false
     | String _ t => contains sub t
     end.

(** [re.sub(r"(_|\-|\.|\+)", " ", s)] *)
Definition is_separator (c : ascii) : bool :=
  Ascii.eqb c "_" || Ascii.eqb c "-" || Ascii.eqb c "." || Ascii.eqb c "+".

Fixpoint normalize_name (s : string) : string :=
  match s with
  | EmptyString => EmptyString
  | String c t => String (if is_separator c then " "%char else c) (normalize_name t)
  end.

(** [s.split('/')[0]] *)
Fixpoint before_slash (s : string) : string :=
  match s with
  | EmptyString => EmptyString
  | String c t => if Ascii.eqb c "/" then EmptyString else String c (before_slash t)
  end.

(** Truth value of a [str]. *)
Definition truthy (s : string) : bool :=
  match s with
  | EmptyString => false
  | _ => true
  end.

End PyStr.

(** ** Documents and collections *)

Module Store.

Inductive ModelId : Type := MediaDB1 | MediaDB2 | MediaDB3.

(** A stored document, with the seven values [BaseMedia] names; [file_id]
    is the value kept under the primary key [_id]. *)
Record MediaDoc : Type := {
  file_id : string;
  file_ref : string;
  file_name : string;
  file_size : Z;
  mime_type : option string;
  caption : option string;
  file_type : option string
}.

(** The three collections, each in natural order (oldest first). *)
Record Stores : Type := {
  db1 : list MediaDoc;
  db2 : list MediaDoc;
  db3 : list MediaDoc
}.

Definition coll (X : ModelId) (st : Stores) : list MediaDoc :=
  match X with
  | MediaDB1 => db1 st
  | MediaDB2 => db2 st
  | MediaDB3 => db3 st
  end.

Definition set_coll (X : ModelId) (c : list MediaDoc) (st : Stores) : Stores :=
  match X with
  | MediaDB1 => {| db1 := c; db2 := db2 st; db3 := db3 st |}
  | MediaDB2 => {| db1 := db1 st; db2 := c; db3 := db3 st |}
  | MediaDB3 => {| db1 := db1 st; db2 := db2 st; db3 := c |}
  end.

Definition has_key (k : string) (c : list MediaDoc) : bool :=
  existsb (fun d => String.eqb (file_id d) k) c.

(** Number of documents of a collection stored under the key [k]. *)
Definition count_key (k : string) (c : list MediaDoc) : nat :=
  List.length (filter (fun d => String.eqb (file_id d) k) c).

(** The fields the document classes [MediaDB1], [MediaDB2] and [MediaDB3]
    declare. Their bodies hold nothing but [Meta]: the seven fields are
    attributes of [BaseMedia], which is a plain class, and the registration
    of a document class reads the field attributes of that class alone. *)
Definition declared_fields : list string := [].

Definition declared (name : string) : bool :=
  existsb (String.eqb name) declared_fields.

(** Building a document object from a stored document: a key of the stored
    document that no declared field stores makes it fail. Every stored
    record has at least the keys [file_name] and [file_size]. *)
Definition build_from_mongo (d : MediaDoc) : PyResult MediaDoc :=
  if declared "file_name"%string && declared "file_size"%string then Return d
  else Raise UnknownFieldInDBError.

Fixpoint build_all (raw : list MediaDoc) : PyResult (list MediaDoc) :=
  match raw with
  | [] => Return []
  | d :: t =>
      x <- build_from_mongo d ;;
      xs <- build_all t ;;
      Return (x :: xs)
  end.

(** [cursor.to_list(length=n)]: [ValueError] when [n] is negative; otherwise
    at most [n] stored documents are fetched and built. *)
Definition to_list (cursor : list MediaDoc) (length : Z) : PyResult (list MediaDoc) :=
  if length <? 0 then Raise ValueError
  else build_all (firstn (Z.to_nat length) cursor).

(** What the outside world answers during one call of [save_file]:
    [dbstats X] is the outcome of the [dbstats] command on shard [X] (its
    [dataSize], or the exception it raised); [commit_failure X] is the
    exception, if any, with which the store fails an insert into [X] for a
    reason of its own. *)
Record Env : Type := {
  dbstats : ModelId -> PyResult Z;
  commit_failure : ModelId -> option Exn
}.

(** [file.commit()] on a new document: the store's unique index on [_id]
    rejects a key it already holds. *)
Definition commit (env : Env) (X : ModelId) (st : Stores) (file : MediaDoc)
  : PyResult Stores :=
  match commit_failure env X with
  | Some e => Raise e
  | None =>
      if has_key (file_id file) (coll X st) then Raise DuplicateKeyError
      else Return (set_coll X (coll X st ++ [file]) st)
  end.

End Store.

(** ** Saving with shard rotation *)

Module Router.

Import Store.

(** The attributes [save_file] reads from the incoming media: the decoded
    [file_id], [str(file_name)], [file_size] ([None] when it is not an
    integer), [mime_type], and the caption's html when there is a caption. *)
Record Media : Type := {
  m_file_id : Codec.FileId;
  m_file_name : string;
  m_file_size : option Z;
  m_mime_type : option string;
  m_caption : option string
}.

Definition ceiling : Z := 480 * 1024 * 1024 * 1024.

(** The keywords of the call [Model(file_id=..., ..., file_type=...)]. *)
Definition keywords : list string :=
  ["file_id"; "file_ref"; "file_name"; "file_size"; "mime_type"; "caption";
   "file_type"]%string.

(** [Model(file_id=..., ...)]: a keyword that is not a declared field is
    rejected as unknown, and the schema requires an integer [file_size];
    either way the construction raises [ValidationError]. *)
Definition new_model (file_id file_ref file_name : string) (media : Media)
  : PyResult MediaDoc :=
  if forallb declared keywords then
    match m_file_size media with
    | None => Raise ValidationError
    | Some size =>
        Return {| Store.file_id := file_id;
                  file_ref := file_ref;
                  file_name := file_name;
                  file_size := size;
                  mime_type := m_mime_type media;
                  caption := m_caption media;
                  file_type :=
                    match m_mime_type media with
                    | Some mt =>
                        if PyStr.truthy mt then Some (PyStr.before_slash mt) else None
                    | None => None
                    end |}
    end
  else Raise ValidationError.

(** The calls [save_file] makes on the shards, in the order it makes them:
    the size check [db_func()], the construction [Model(...)] and
    [file.commit()]. *)
Inductive Call : Type :=
| SizeCheck (X : ModelId)
| NewModel (X : ModelId)
| Commit (X : ModelId).

(** The [for Model, db_func in [...]] loop of [save_file], with the calls
    made so far. The outer [except Exception: continue] encloses the size
    check, the construction and the commit. *)
Fixpoint save_loop (env : Env) (models : list ModelId) (st : Stores)
    (file_id file_ref file_name : string) (media : Media) (calls : list Call)
  : PyResult string * Stores * list Call :=
  match models with
  | [] => (Return "err"%string, st, calls)
  | X :: rest =>
      let calls := calls ++ [SizeCheck X] in
      match dbstats env X with
      | Raise _ => save_loop env rest st file_id file_ref file_name media calls
      | Return used =>
          if used <? ceiling then
            let calls := calls ++ [NewModel X] in
            match new_model file_id file_ref file_name media with
            | Raise ValidationError => (Return "err"%string, st, calls)
            | Raise _ => save_loop env rest st file_id file_ref file_name media calls
            | Return file =>
                let calls := calls ++ [Commit X] in
                match commit env X st file with
                | Raise DuplicateKeyError => (Return "dup"%string, st, calls)
                | Raise _ =>
                    save_loop env rest st file_id file_ref file_name media calls
                | Return st' => (Return "suc"%string, st', calls)
                end
            end
          else save_loop env rest st file_id file_ref file_name media calls
      end
  end.

Definition save_file_run (env : Env) (st : Stores) (media : Media)
  : PyResult string * Stores * list Call :=
  match Codec.unpack_new_file_id (m_file_id media) with
  | Raise e => (Raise e, st, [])
  | Return (file_id, file_ref) =>
      save_loop env [MediaDB1; MediaDB2; MediaDB3] st
        file_id file_ref (PyStr.normalize_name (m_file_name media)) media []
  end.

(** [save_file]: what it returns or raises, and the shards after it. *)
Definition save_file (env : Env) (st : Stores) (media : Media)
  : PyResult string * Stores :=
  fst (save_file_run env st media).

(** The calls one run of [save_file] makes. *)
Definition save_calls (env : Env) (st : Stores) (media : Media) : list Call :=
  snd (save_file_run env st media).

End Router.

(** ** Searching across the shards *)

Module Search.

Import Store.

(** Python's [re], as far as the queries use it. [re_compile] is
    [re.compile(p, flags=re.IGNORECASE)]: it returns a pattern, or raises
    [re.error] ([ReError]) on a malformed pattern, or raises something else
    ([OverflowError] on an oversized repetition count, [RecursionError] on
    deep nesting). [re_search p s] tells whether the store's pattern filter
    selects [s]. *)
Class Regex : Type := {
  pattern : Type;
  re_compile : string -> PyResult pattern;
  re_search : pattern -> string -> bool
}.

(** [next_offset]: an integer, or the empty string when no page follows. *)
Inductive NextOffset : Type :=
| Offset (n : Z)
| NoMore.

(** [list[a:b]] with Python's handling of negative and oversized bounds. *)
Definition clamp_index (len i : Z) : Z :=
  if i <? 0 then Z.max 0 (i + len) else Z.min i len.

Definition py_slice {A : Type} (l : list A) (a b : Z) : list A :=
  let len := Z.of_nat (List.length l) in
  let lo := clamp_index len a in
  let hi := clamp_index len b in
  firstn (Z.to_nat (hi - lo)) (skipn (Z.to_nat lo) l).

(** [results.sort(key=lambda x: getattr(x.id, "generation_time", 0),
    reverse=True)]: the key function is called on every element, and a
    document has no attribute [id] (no field of that name is declared), so
    on a list that is not empty the call raises [AttributeError]. *)
Definition sort_results (results : list MediaDoc) : PyResult (list MediaDoc) :=
  match results with
  | [] => Return []
  | _ :: _ => Raise AttributeError
  end.

Section WithRegex.

Context {RE : Regex}.

(** The value under ['file_name'] in the filter: a compiled pattern, or a
    plain string, which the store compares for equality. *)
Inductive NameFilter : Type :=
| ByPattern (p : pattern)
| ByString (s : string).

Record FilterQ : Type := {
  on_file_name : NameFilter;
  on_file_type : option string
}.

Definition name_selected (f : NameFilter) (name : string) : bool :=
  match f with
  | ByPattern p => re_search p name
  | ByString s => String.eqb name s
  end.

(** Whether a stored document satisfies the filter; the names [file_name]
    and [file_type] reach the store as the keys the values are stored
    under. *)
Definition selected (q : FilterQ) (d : MediaDoc) : bool :=
  name_selected (on_file_name q) (file_name d)
  && match on_file_type q with
     | None => true
     | Some ft =>
         match file_type d with
         | Some ft' => String.eqb ft' ft
         | None => false
         end
     end.

(** [Model.find(filter_q).sort('$natural', -1)]: newest first. *)
Definition find_newest_first (q : FilterQ) (c : list MediaDoc) : list MediaDoc :=
  rev (filter (selected q) c).

(** [Model.count_documents(filter_q)] *)
Definition count_documents (q : FilterQ) (c : list MediaDoc) : Z :=
  Z.of_nat (List.length (filter (selected q) c)).

(** The pattern both queries build from the stripped query text. *)
Definition raw_pattern (query : string) : string :=
  if negb (PyStr.truthy query) then "."%string
  else if negb (PyStr.has_char " " query)
  then ("(\b|[\.\+\-_])" ++ query ++ "(\b|[\.\+\-_])")%string
  else PyStr.replace_char " " ".*[\s\.\+\-_]"%string query.

(** The [try: regex = re.compile(...) except re.error: regex = query] of
    [get_search_results]. *)
Definition name_filter (query : string) : PyResult NameFilter :=
  match re_compile (raw_pattern query) with
  | Return p => Return (ByPattern p)
  | Raise ReError => Return (ByString query)
  | Raise e => Raise e
  end.

(** [if lang: model_results = [f for f in model_results
                               if lang in f.file_name.lower()]] *)
Definition lang_filter (lang : option string) (model_results : list MediaDoc)
  : list MediaDoc :=
  match lang with
  | Some l =>
      if PyStr.truthy l
      then filter (fun f => PyStr.contains l (PyStr.lower (file_name f))) model_results
      else model_results
  | None => model_results
  end.

(** The [for Model in [...]] loop of [get_search_results] with its two
    accumulators. *)
Fixpoint search_loop (models : list ModelId) (st : Stores) (filter_q : FilterQ)
    (max_results : Z) (lang : option string)
    (results : list MediaDoc) (total_results : Z)
  : PyResult (list MediaDoc * Z) :=
  match models with
  | [] => Return (results, total_results)
  | X :: rest =>
      model_results <- to_list (find_newest_first filter_q (coll X st)) (max_results * 3) ;;
      search_loop rest st filter_q max_results lang
        (results ++ lang_filter lang model_results)
        (total_results + count_documents filter_q (coll X st))
  end.

Definition get_search_results (st : Stores) (query : string) (max_results offset : Z)
    (lang : option string)
  : PyResult (list MediaDoc * NextOffset * Z) :=
  let query := PyStr.strip query in
  regex <- name_filter query ;;
  let filter_q := {| on_file_name := regex; on_file_type := None |} in
  acc <- search_loop [MediaDB1; MediaDB2; MediaDB3] st filter_q max_results lang [] 0 ;;
  let '(results, total_results) := acc in
  results <- sort_results results ;;
  let files := py_slice results offset (offset + max_results) in
  let next_offset := offset + max_results in
  Return (files,
          if next_offset >=? total_results then NoMore else Offset next_offset,
          total_results).

(** The loop of [get_bad_files]: the count is added before the fetch, and
    the running total bounds the fetch. *)
Fixpoint bad_files_loop (models : list ModelId) (st : Stores) (filter_q : FilterQ)
    (results : list MediaDoc) (total_results : Z)
  : PyResult (list MediaDoc * Z) :=
  match models with
  | [] => Return (results, total_results)
  | X :: rest =>
      let total_results := total_results + count_documents filter_q (coll X st) in
      fetched <- to_list (find_newest_first filter_q (coll X st)) total_results ;;
      bad_files_loop rest st filter_q (results ++ fetched) total_results
  end.

Definition get_bad_files (st : Stores) (query : string) (file_type : option string)
  : PyResult (list MediaDoc * Z) :=
  let query := PyStr.strip query in
  match re_compile (raw_pattern query) with
  | Raise ReError => Return ([], 0)
  | Raise e => Raise e
  | Return regex =>
      let filter_q :=
        {| on_file_name := ByPattern regex;
           on_file_type :=
             match file_type with
             | Some ft => if PyStr.truthy ft then Some ft else None
             | None => None
             end |} in
      bad_files_loop [MediaDB1; MediaDB2; MediaDB3] st filter_q [] 0
  end.

(** Calling [get_search_results] at offsets [offset], [offset + M], ... until
    the call that answers [NoMore], and concatenating the pages; [None] when
    a call raises or the calls allowed by [fuel] are used up. *)
Fixpoint collect_pages (fuel : nat) (st : Stores) (query : string) (M offset : Z)
    (lang : option string) : option (list MediaDoc) :=
  match fuel with
  | O => None
  | S fuel' =>
      match get_search_results st query M offset lang with
      | Raise _ => None
      | Return (files, NoMore, _) => Some files
      | Return (files, Offset next, _) =>
          match collect_pages fuel' st query M next lang with
          | Some more => Some (files ++ more)
          | None => None
          end
      end
  end.

End WithRegex.

End Search.

(** ** Looking a record up by its key *)

Module Lookup.

Import Store.

(** [Model.find({'file_id': file_id})]. A declared field name is replaced by
    the key its value is stored under, which for [file_id] is [_id]; a name
    that is not declared reaches the store as it is, and no stored document
    has a key [file_id]. *)
Definition find_by_key (file_id : string) (c : list MediaDoc) : list MediaDoc :=
  if declared "file_id"%string
  then filter (fun d => String.eqb (Store.file_id d) file_id) c
  else [].

(** The [for Model in [...]] loop of [get_file_details]: the first shard
    that answers a non-empty list decides. *)
Fixpoint details_loop (models : list ModelId) (st : Stores) (file_id : string)
  : PyResult (list MediaDoc) :=
  match models with
  | [] => Return []
  | X :: rest =>
      filedetails <- to_list (find_by_key file_id (coll X st)) 1 ;;
      match filedetails with
      | [] => details_loop rest st file_id
      | _ :: _ => Return filedetails
      end
  end.

Definition get_file_details (st : Stores) (file_id : string)
  : PyResult (list MediaDoc) :=
  details_loop [MediaDB1; MediaDB2; MediaDB3] st file_id.

End Lookup.

(** ** The codec as the specification words it *)

Module CodecSpec.

Import Codec.

(** The maximal runs of equal bytes of a byte string, each with its length. *)
Fixpoint runs (l : list Z) : list (Z * nat) :=
  match l with
  | [] => []
  | x :: t =>
      match runs t with
      | (y, n) :: g => if x =? y then (y, S n) :: g else (x, 1%nat) :: (y, n) :: g
      | [] => [(x, 1%nat)]
      end
  end.

(** A run of [n] zero bytes becomes the two bytes [0, n]; a run of any other
    byte is left as it is. *)
Definition compress_run (run : Z * nat) : list Z :=
  let '(v, n) := run in
  if v =? 0 then [0; Z.of_nat n] else repeat v n.

Definition zero_rle (l : list Z) : list Z := flat_map compress_run (runs l).

Definition trailer : list Z := [22; 4].

(** Pack, append the trailer, compress the zero runs, base64url-encode,
    strip the padding. *)
Definition storage_key (d : FileId) : PyResult string :=
  packed <- pack_iiqq (file_type d) (dc_id d) (media_id d) (access_hash d) ;;
  Return (b64_nopad (zero_rle (packed ++ trailer))).

Definition reference_token (d : FileId) : string :=
  b64_nopad (file_reference d).

(** Left inverses of the three encoding layers; the injectivity proofs go
    through them. *)

Fixpoint from_le (bs : list Z) : Z :=
  match bs with
  | [] => 0
  | b :: t => b + 256 * from_le t
  end.

Fixpoint zero_unrle (l : list Z) : list Z :=
  match l with
  | [] => []
  | 0 :: n :: t => repeat 0 (Z.to_nat n) ++ zero_unrle t
  | b :: t => b :: zero_unrle t
  end.

Fixpoint index_of (c : ascii) (l : list ascii) : nat :=
  match l with
  | [] => O
  | x :: t => if Ascii.eqb x c then O else S (index_of c t)
  end.

Definition b64_index (c : ascii) : Z := Z.of_nat (index_of c b64_alphabet).

Fixpoint b64decode_nopad (cs : list ascii) : list Z :=
  match cs with
  | [] => []
  | [_] => []
  | [c1; c2] => [b64_index c1 * 4 + b64_index c2 / 16]
  | [c1; c2; c3] =>
      [b64_index c1 * 4 + b64_index c2 / 16;
       b64_index c2 mod 16 * 16 + b64_index c3 / 4]
  | c1 :: c2 :: c3 :: c4 :: rest =>
      b64_index c1 * 4 + b64_index c2 / 16
      :: b64_index c2 mod 16 * 16 + b64_index c3 / 4
      :: b64_index c3 mod 4 * 64 + b64_index c4
      :: b64decode_nopad rest
  end.

(** The four identifying fields of a descriptor. *)
Definition identity (d : FileId) : Z * Z * Z * Z :=
  (file_type d, dc_id d, media_id d, access_hash d).

(** The values [struct.pack] accepts for the four fields. *)
Definition in_range (d : FileId) : Prop :=
  - 2 ^ 31 <= file_type d < 2 ^ 31 /\ - 2 ^ 31 <= dc_id d < 2 ^ 31 /\
  - 2 ^ 63 <= media_id d < 2 ^ 63 /\ - 2 ^ 63 <= access_hash d < 2 ^ 63.

End CodecSpec.

(** ** Notions the statements about saving use *)

Module RouterMore.

Import Store Router.

(** A shard the loop passes over: its size check failed, or answered the
    ceiling or more. *)
Definition closed (env : Env) (X : ModelId) : Prop :=
  match dbstats env X with
  | Return used => ceiling <= used
  | Raise _ => True
  end.

End RouterMore.

(** ** Notions the statements about searching use *)

Module SearchSpec.

Import Store Search.

Section WithRegex.

Context {RE : Regex}.

Definition shards : list ModelId := [MediaDB1; MediaDB2; MediaDB3].

(** The filter [get_search_results] queries the shards with, once it has a
    value for ['file_name']. *)
Definition by_name (regex : NameFilter) : FilterQ :=
  {| on_file_name := regex; on_file_type := None |}.

(** The filter [get_bad_files] builds from a compiled pattern and the
    optional category. *)
Definition bad_files_filter (p : pattern) (file_type : option string) : FilterQ :=
  {| on_file_name := ByPattern p;
     on_file_type :=
       match file_type with
       | Some ft => if PyStr.truthy ft then Some ft else None
       | None => None
       end |}.

Definition count_in (st : Stores) (q : FilterQ) (ms : list ModelId) : Z :=
  fold_right (fun X acc => count_documents q (coll X st) + acc) 0 ms.

(** The number of stored documents, over the three shards, that the filter
    selects. *)
Definition total_count (st : Stores) (q : FilterQ) : Z := count_in st q shards.

(** Some shard holds a document the filter selects. *)
Definition holds_selected (st : Stores) (q : FilterQ) : Prop :=
  exists X d, In d (coll X st) /\ selected q d = true.

(** The records a literal substring search for the query text would give. *)
Definition literal_substring_matches (st : Stores) (query : string) : list MediaDoc :=
  filter (fun d => PyStr.contains query (file_name d)) (db1 st ++ db2 st ++ db3 st).

(** The stored records whose name is the given text. *)
Definition named_exactly (st : Stores) (name : string) : list MediaDoc :=
  filter (fun d => String.eqb (file_name d) name) (db1 st ++ db2 st ++ db3 st).

End WithRegex.

End SearchSpec.

(** ** The remaining-time display of the premium commands *)

Module Premium.

(** Python's [divmod] on integers. *)
Definition divmod (a b : Z) : Z * Z := (a / b, a mod b).

(** [hours, remainder = divmod(seconds, 3600)] followed by
    [minutes, seconds = divmod(remainder, 60)], as [check_plans_cmd] and
    [premium_users_info] split the [seconds] of a [timedelta]. *)
Definition split_seconds (seconds : Z) : Z * Z * Z :=
  let '(hours, remainder) := divmod seconds 3600 in
  let '(minutes, seconds) := divmod remainder 60 in
  (hours, minutes, seconds).

End Premium.

(** ** Further notions for statements about the codec *)

Module CodecMore.

Import Codec CodecSpec.

(** A run the loop can write down: any run of a non-zero byte, and a run of
    fewer than 256 zero bytes. *)
Definition encodable_run (run : Z * nat) : bool :=
  negb (fst run =? 0) || (Z.of_nat (snd run) <? 256).

Definition encodable (l : list Z) : bool := forallb encodable_run (runs l).

(** The characters of the URL-safe alphabet. *)
Definition url_safe (s : string) : Prop :=
  Forall (fun c => In c b64_alphabet) (list_ascii_of_string s).

End CodecMore.

(** ** Concrete data for the worked examples *)

Module Examples.

Import Store.

Definition descriptor_a : Codec.FileId :=
  {| Codec.file_type := 5; Codec.dc_id := 4; Codec.media_id := 123456789012;
     Codec.access_hash := -99; Codec.file_reference := [1; 2; 3; 4] |}.

Definition descriptor_b : Codec.FileId :=
  {| Codec.file_type := 5; Codec.dc_id := 4; Codec.media_id := 123456789012;
     Codec.access_hash := 256; Codec.file_reference := [1; 2; 3; 4] |}.

Definition key_a : string := "BQADBAADFBqZvhwAA53_________FgQ".
Definition key_b : string := "BQADBAADFBqZvhwABAEABhYE".

Definition media_a : Router.Media :=
  {| Router.m_file_id := descriptor_a;
     Router.m_file_name := "The_Matrix.1999.mkv";
     Router.m_file_size := Some 734003200;
     Router.m_mime_type := Some "video/x-matroska"%string;
     Router.m_caption := None |}.

(** The same file sent again under another name. *)
Definition media_a_again : Router.Media :=
  {| Router.m_file_id := descriptor_a;
     Router.m_file_name := "matrix-reupload.mkv";
     Router.m_file_size := Some 734003200;
     Router.m_mime_type := Some "video/x-matroska"%string;
     Router.m_caption := None |}.

Definition doc_a : MediaDoc :=
  {| file_id := key_a;
     file_ref := "AQIDBA";
     file_name := "The Matrix 1999 mkv";
     file_size := 734003200;
     mime_type := Some "video/x-matroska"%string;
     caption := None;
     file_type := Some "video"%string |}.

Definition empty_stores : Stores := {| db1 := []; db2 := []; db3 := [] |}.

(** Every shard answers its size check with the given usage and accepts
    inserts. *)
Definition healthy (u1 u2 u3 : Z) : Env :=
  {| dbstats := fun X =>
       match X with
       | MediaDB1 => Return u1
       | MediaDB2 => Return u2
       | MediaDB3 => Return u3
       end;
     commit_failure := fun _ => None |}.

(** As [healthy 0 0 0], but the store fails the insert into the first shard
    with an error that is not a duplicate key. *)
Definition first_commit_fails : Env :=
  {| dbstats := fun _ => Return 0;
     commit_failure := fun X =>
       match X with
       | MediaDB1 => Some (StoreError "connection reset")
       | _ => None
       end |}.


(** A small regular-expression engine to run the examples with. On the
    patterns the examples build it answers as Python's [re] does: [.] is
    found in every string that has a character other than a line feed; the
    pattern built from the query [(], whose parentheses do not balance, is
    rejected with [re.error]; the pattern built from the query
    [x{4294967296}], whose repetition count is too large, is rejected with
    [OverflowError]. Any other pattern it reads as literal text, compared
    without case; the examples never search with such a pattern. *)
Inductive demo_pattern : Type :=
| AnyChar
| Literal (s : string).

Fixpoint balanced (s : string) (in_class : bool) (depth : nat) : bool :=
  match s with
  | EmptyString => negb in_class && Nat.eqb depth 0
  | String "\" (String _ t) => balanced t in_class depth
  | String c t =>
      if in_class then balanced t (negb (Ascii.eqb c "]")) depth
      else if Ascii.eqb c "[" then balanced t true depth
      else if Ascii.eqb c "(" then balanced t false (S depth)
      else if Ascii.eqb c ")" then
        match depth with
        | O => false
        | S d => balanced t false d
        end
      else balanced t false depth
  end.

Definition demo_compile (p : string) : PyResult demo_pattern :=
  if String.eqb p "." then Return AnyChar
  else if PyStr.contains "{4294967296}" p then Raise OverflowError
  else if balanced p false 0 then Return (Literal p)
  else Raise ReError.

Fixpoint has_non_newline (s : string) : bool :=
  match s with
  | EmptyString => false
  | String c t => negb (Ascii.eqb c "010") || has_non_newline t
  end.

Definition demo_search (p : demo_pattern) (s : string) : bool :=
  match p with
  | AnyChar => has_non_newline s
  | Literal l => PyStr.contains (PyStr.lower l) (PyStr.lower s)
  end.

#[export] Instance demo_re : Search.Regex :=
  {| Search.pattern := demo_pattern;
     Search.re_compile := demo_compile;
     Search.re_search := demo_search |}.

Definition named (key name : string) : MediaDoc :=
  {| file_id := key;
     file_ref := "AQIDBA";
     file_name := name;
     file_size := 1024;
     mime_type := Some "video/mp4"%string;
     caption := None;
     file_type := Some "video"%string |}.

Definition doc1 : MediaDoc := named "k1" "Alpha English 720p".
Definition doc2 : MediaDoc := named "k2" "Beta Hindi 720p".
Definition doc3 : MediaDoc := named "k3" "Gamma english 1080p".
Definition doc4 : MediaDoc := named "k4" "Delta (2020) Tamil".

(** Four records, all in the first shard, [doc1] the oldest. *)
Definition four_in_first : Stores :=
  {| db1 := [doc1; doc2; doc3; doc4]; db2 := []; db3 := [] |}.

(** The first shard already holds the record of [media_a]. *)
Definition holding_a : Stores := {| db1 := [doc_a]; db2 := []; db3 := [] |}.

End Examples.

(** * Proofs: the identifier codec *)

Module CodecProofs.

Import Codec CodecSpec.

Lemma bind_return {A B : Type} (m : PyResult A) (k : A -> PyResult B) (b : B) :
  bind m k = Return b -> exists a, m = Return a /\ k a = Return b.
Proof.
  destruct m as [a|e]; simpl; intro H; [exists a; split; trivial | discriminate].
Qed.

(** *** Packing *)

Lemma le_bytes_length k v : List.length (le_bytes k v) = k.
Proof.
  revert v; induction k as [|k IH]; intro v; simpl; [reflexivity | now rewrite IH].
Qed.

Lemma le_bytes_is_byte k v : Forall is_byte (le_bytes k v).
Proof.
  revert v; induction k as [|k IH]; intro v; simpl; constructor.
  - unfold is_byte. apply Z.mod_pos_bound. lia.
  - apply IH.
Qed.

Lemma from_le_le_bytes k v :
  0 <= v < 256 ^ Z.of_nat k -> from_le (le_bytes k v) = v.
Proof.
  revert v; induction k as [|k IH]; intros v Hv.
  - simpl in *. lia.
  - cbn [le_bytes from_le].
    rewrite Nat2Z.inj_succ, Z.pow_succ_r in Hv by lia.
    rewrite IH.
    + pose proof (Z.div_mod v 256). lia.
    + split.
      * apply Z.div_pos; lia.
      * apply Z.div_lt_upper_bound; lia.
Qed.

Lemma pack_signed_return k v bs :
  pack_signed k v = Return bs ->
  bs = le_bytes k (v mod 2 ^ (8 * Z.of_nat k)) /\
  - (2 ^ (8 * Z.of_nat k) / 2) <= v < 2 ^ (8 * Z.of_nat k) / 2.
Proof.
  unfold pack_signed.
  destruct (_ && _) eqn:E; [|discriminate].
  intro H; injection H as <-. apply andb_true_iff in E as [E1 E2].
  split; [reflexivity | lia].
Qed.

Lemma pack_signed_in_range k v :
  - (2 ^ (8 * Z.of_nat k) / 2) <= v < 2 ^ (8 * Z.of_nat k) / 2 ->
  pack_signed k v = Return (le_bytes k (v mod 2 ^ (8 * Z.of_nat k))).
Proof.
  intro H. unfold pack_signed.
  replace (_ && _) with true; [reflexivity|].
  symmetry. apply andb_true_iff. split; lia.
Qed.

Lemma pow256 k : 256 ^ Z.of_nat k = 2 ^ (8 * Z.of_nat k).
Proof. rewrite Z.pow_mul_r by lia. reflexivity. Qed.

(** Two values that fit the field and pack to the same bytes are equal. *)
Lemma pack_signed_inj k u v bs :
  (0 < k)%nat ->
  pack_signed k u = Return bs -> pack_signed k v = Return bs -> u = v.
Proof.
  intros Hk Hu Hv.
  apply pack_signed_return in Hu as [Eu Ru], Hv as [Ev Rv].
  assert (Hm : 0 < 2 ^ (8 * Z.of_nat k)) by (apply Z.pow_pos_nonneg; lia).
  set (M := 2 ^ (8 * Z.of_nat k)) in *.
  assert (Heven : M = 2 * (M / 2)).
  { unfold M. replace (8 * Z.of_nat k) with (Z.succ (8 * Z.of_nat k - 1)) by lia.
    rewrite Z.pow_succ_r by lia.
    rewrite (Z.mul_comm 2), Z.div_mul by lia. lia. }
  assert (E : u mod M = v mod M).
  { rewrite <- (from_le_le_bytes k (u mod M)), <- (from_le_le_bytes k (v mod M)).
    - congruence.
    - rewrite pow256. apply Z.mod_pos_bound; exact Hm.
    - rewrite pow256. apply Z.mod_pos_bound; exact Hm. }
  pose proof (Z.div_mod u M ltac:(lia)) as Du.
  pose proof (Z.div_mod v M ltac:(lia)) as Dv.
  pose proof (Z.mod_pos_bound u M Hm).
  pose proof (Z.mod_pos_bound v M Hm).
  assert (u / M = v / M) by nia.
  congruence.
Qed.

Lemma app_inj_length {A : Type} (a a' b b' : list A) :
  List.length a = List.length a' -> a ++ b = a' ++ b' -> a = a' /\ b = b'.
Proof.
  revert a'; induction a as [|x a IH]; intros [|x' a'] Hl H; simpl in *;
    try discriminate.
  - split; trivial.
  - injection H as -> H. injection Hl as Hl.
    destruct (IH _ Hl H) as [-> ->]. split; reflexivity.
Qed.

Lemma pack_signed_length k v bs : pack_signed k v = Return bs -> List.length bs = k.
Proof.
  intro H. apply pack_signed_return in H as [-> _]. apply le_bytes_length.
Qed.

Lemma pack_signed_is_byte k v bs : pack_signed k v = Return bs -> Forall is_byte bs.
Proof.
  intro H. apply pack_signed_return in H as [-> _]. apply le_bytes_is_byte.
Qed.

Lemma pack_iiqq_return a b c d bs :
  pack_iiqq a b c d = Return bs ->
  exists ba bb bc bd,
    pack_signed 4 a = Return ba /\ pack_signed 4 b = Return bb /\
    pack_signed 8 c = Return bc /\ pack_signed 8 d = Return bd /\
    bs = ba ++ bb ++ bc ++ bd.
Proof.
  unfold pack_iiqq. intro H.
  apply bind_return in H as (ba & Ha & H).
  apply bind_return in H as (bb & Hb & H).
  apply bind_return in H as (bc & Hc & H).
  apply bind_return in H as (bd & Hd & H).
  injection H as <-. exists ba, bb, bc, bd. repeat split; assumption.
Qed.

Lemma pack_iiqq_length a b c d bs :
  pack_iiqq a b c d = Return bs -> List.length bs = 24%nat.
Proof.
  intro H. apply pack_iiqq_return in H as (ba & bb & bc & bd & Ha & Hb & Hc & Hd & ->).
  rewrite !length_app.
  rewrite (pack_signed_length _ _ _ Ha), (pack_signed_length _ _ _ Hb),
    (pack_signed_length _ _ _ Hc), (pack_signed_length _ _ _ Hd).
  reflexivity.
Qed.

Lemma pack_iiqq_is_byte a b c d bs :
  pack_iiqq a b c d = Return bs -> Forall is_byte bs.
Proof.
  intro H. apply pack_iiqq_return in H as (ba & bb & bc & bd & Ha & Hb & Hc & Hd & ->).
  repeat (apply Forall_app; split); eapply pack_signed_is_byte; eassumption.
Qed.

Lemma pack_iiqq_inj a b c d a' b' c' d' bs :
  pack_iiqq a b c d = Return bs -> pack_iiqq a' b' c' d' = Return bs ->
  (a, b, c, d) = (a', b', c', d').
Proof.
  intros H H'.
  apply pack_iiqq_return in H as (ba & bb & bc & bd & Ha & Hb & Hc & Hd & ->).
  apply pack_iiqq_return in H' as (ba' & bb' & bc' & bd' & Ha' & Hb' & Hc' & Hd' & E).
  pose proof (pack_signed_length _ _ _ Ha). pose proof (pack_signed_length _ _ _ Ha').
  pose proof (pack_signed_length _ _ _ Hb). pose proof (pack_signed_length _ _ _ Hb').
  pose proof (pack_signed_length _ _ _ Hc). pose proof (pack_signed_length _ _ _ Hc').
  apply app_inj_length in E as [<- E]; [|congruence].
  apply app_inj_length in E as [<- E]; [|congruence].
  apply app_inj_length in E as [<- <-]; [|congruence].
  rewrite (pack_signed_inj 4 a a' ba), (pack_signed_inj 4 b b' bb),
    (pack_signed_inj 8 c c' bc), (pack_signed_inj 8 d d' bd); auto with arith.
Qed.

Lemma pack_iiqq_in_range d :
  in_range d ->
  exists bs, pack_iiqq (file_type d) (dc_id d) (media_id d) (access_hash d) = Return bs.
Proof.
  intros (H1 & H2 & H3 & H4). unfold pack_iiqq.
  rewrite !pack_signed_in_range; simpl; eauto; 
    change (2 ^ (8 * Z.of_nat 8) / 2) with (2 ^ 63);
    change (2 ^ (8 * Z.of_nat 4) / 2) with (2 ^ 31); lia.
Qed.


(** *** Zero-run compression: the loop against the run-based definition *)

Lemma runs_cons_head x t : exists n g, runs (x :: t) = (x, n) :: g.
Proof.
  simpl. destruct (runs t) as [|[y n] g]; [now eexists; eexists|].
  destruct (x =? y) eqn:E.
  - apply Z.eqb_eq in E as <-. now eexists; eexists.
  - now eexists; eexists.
Qed.

Lemma zero_rle_cons_nonzero x t : x <> 0 -> zero_rle (x :: t) = x :: zero_rle t.
Proof.
  intro Hx. unfold zero_rle. simpl.
  destruct (runs t) as [|[y n] g].
  - simpl. apply Z.eqb_neq in Hx. now rewrite Hx.
  - destruct (x =? y) eqn:E; simpl.
    + apply Z.eqb_eq in E as <-. apply Z.eqb_neq in Hx. now rewrite Hx.
    + apply Z.eqb_neq in Hx. now rewrite Hx.
Qed.

Lemma runs_zeros_then_nonzero k x t :
  x <> 0 -> runs (repeat 0 (S k) ++ x :: t) = (0, S k) :: runs (x :: t).
Proof.
  intro Hx. induction k as [|k IH].
  - cbn [repeat app]. cbn [runs].
    destruct (runs_cons_head x t) as (n & g & E). cbn [runs] in E. rewrite E.
    apply Z.eqb_neq in Hx. rewrite Z.eqb_sym in Hx. now rewrite Hx.
  - change (repeat 0 (S (S k)) ++ x :: t) with (0 :: (repeat 0 (S k) ++ x :: t)).
    cbn [runs]. rewrite IH. reflexivity.
Qed.

Lemma zero_rle_zeros_then_nonzero k x t :
  x <> 0 ->
  zero_rle (repeat 0 (S k) ++ x :: t) = 0 :: Z.of_nat (S k) :: zero_rle (x :: t).
Proof.
  intro Hx. unfold zero_rle. rewrite runs_zeros_then_nonzero by assumption.
  reflexivity.
Qed.

Lemma repeat_snoc_app {A : Type} (a : A) k (l : list A) :
  repeat a (S k) ++ l = repeat a k ++ a :: l.
Proof.
  induction k as [|k IH]; [reflexivity|].
  change (repeat a (S (S k))) with (a :: repeat a (S k)).
  cbn [app]. rewrite IH. reflexivity.
Qed.

(** The loop, started with [n] pending zeros and output [r], on an input
    that ends in a non-zero byte: it appends the compression of the pending
    zeros followed by the input. *)
Lemma encode_loop_spec s t :
  t <> 0 ->
  forall (n : nat) (r : list Z),
    Z.of_nat n + Z.of_nat (List.length s) < 256 ->
    encode_loop (s ++ [t]) (Z.of_nat n) r
    = Return (r ++ zero_rle (repeat 0 n ++ s ++ [t])).
Proof.
  intro Ht. induction s as [|i s IH]; intros n r Hn; cbn [app encode_loop].
  - apply Z.eqb_neq in Ht as Ht'. rewrite Ht'.
    destruct n as [|n].
    + cbn [Z.of_nat Z.eqb repeat app encode_loop].
      now rewrite zero_rle_cons_nonzero.
    + replace (Z.of_nat (S n) =? 0) with false by (symmetry; apply Z.eqb_neq; lia).
      unfold bytes1.
      replace ((0 <=? Z.of_nat (S n)) && (Z.of_nat (S n) <? 256)) with true
        by (symmetry; apply andb_true_iff; split; [apply Z.leb_le | apply Z.ltb_lt]; lia).
      cbn [bind encode_loop].
      rewrite zero_rle_zeros_then_nonzero, zero_rle_cons_nonzero by assumption.
      rewrite <- !app_assoc. reflexivity.
  - cbn [List.length] in Hn.
    destruct (i =? 0) eqn:Ei.
    + apply Z.eqb_eq in Ei as ->.
      replace (Z.of_nat n + 1) with (Z.of_nat (S n)) by lia.
      rewrite IH by lia. now rewrite repeat_snoc_app.
    + apply Z.eqb_neq in Ei.
      destruct n as [|n].
      * cbn [Z.of_nat Z.eqb repeat app].
        change (encode_loop (s ++ [t]) 0) with (encode_loop (s ++ [t]) (Z.of_nat 0)).
        rewrite IH by lia.
        cbn [repeat app]. rewrite zero_rle_cons_nonzero by assumption.
        rewrite <- app_assoc. reflexivity.
      * replace (Z.of_nat (S n) =? 0) with false by (symmetry; apply Z.eqb_neq; lia).
        unfold bytes1.
        replace ((0 <=? Z.of_nat (S n)) && (Z.of_nat (S n) <? 256)) with true
          by (symmetry; apply andb_true_iff; split; [apply Z.leb_le | apply Z.ltb_lt]; lia).
        cbn [bind].
        change (encode_loop (s ++ [t]) 0) with (encode_loop (s ++ [t]) (Z.of_nat 0)).
        rewrite IH by lia.
        change (repeat 0 0 ++ s ++ [t]) with (s ++ [t]).
        rewrite zero_rle_zeros_then_nonzero, zero_rle_cons_nonzero by assumption.
        rewrite <- !app_assoc. reflexivity.
Qed.

(** On a packed tuple the loop never fails and computes the run-based
    compression of the tuple followed by the trailer. *)
Lemma encode_file_id_spec s :
  (List.length s < 254)%nat ->
  encode_file_id s = Return (b64_nopad (zero_rle (s ++ trailer))).
Proof.
  intro Hs. unfold encode_file_id, trailer.
  change (s ++ [22] ++ [4]) with (s ++ [22; 4]).
  replace (s ++ [22; 4]) with ((s ++ [22]) ++ [4]) by (now rewrite <- app_assoc).
  change (encode_loop ((s ++ [22]) ++ [4]) 0)
    with (encode_loop ((s ++ [22]) ++ [4]) (Z.of_nat 0)).
  rewrite encode_loop_spec.
  - reflexivity.
  - lia.
  - rewrite length_app. simpl. lia.
Qed.


(** *** The compression can be undone *)

Lemma runs_expand l : flat_map (fun run => repeat (fst run) (snd run)) (runs l) = l.
Proof.
  induction l as [|x t IH]; [reflexivity|].
  cbn [runs]. destruct (runs t) as [|[y n] g].
  - simpl in *. now subst.
  - destruct (x =? y) eqn:E.
    + apply Z.eqb_eq in E as ->. simpl in *. now rewrite IH.
    + simpl in *. now rewrite IH.
Qed.

Lemma zero_unrle_nonzero_run v n rest :
  v <> 0 -> zero_unrle (repeat v n ++ rest) = repeat v n ++ zero_unrle rest.
Proof.
  intro Hv. induction n as [|n IH]; [reflexivity|].
  cbn [repeat app]. destruct v; [contradiction| |]; cbn [zero_unrle];
    now rewrite IH.
Qed.

Lemma zero_unrle_compressed rs :
  zero_unrle (flat_map compress_run rs)
  = flat_map (fun run => repeat (fst run) (snd run)) rs.
Proof.
  induction rs as [|[v n] rs IH]; [reflexivity|].
  cbn [flat_map compress_run fst snd].
  destruct (v =? 0) eqn:E.
  - apply Z.eqb_eq in E as ->. cbn [app zero_unrle].
    now rewrite Nat2Z.id, IH.
  - apply Z.eqb_neq in E. now rewrite zero_unrle_nonzero_run, IH.
Qed.

Lemma zero_unrle_zero_rle l : zero_unrle (zero_rle l) = l.
Proof. unfold zero_rle. now rewrite zero_unrle_compressed, runs_expand. Qed.

Lemma runs_lengths l :
  Forall (fun run => (snd run <= List.length l)%nat) (runs l).
Proof.
  induction l as [|x t IH]; [constructor|].
  cbn [runs List.length].
  assert (IH' : Forall (fun run => (snd run <= S (List.length t))%nat) (runs t)).
  { eapply Forall_impl; [|exact IH]. simpl; intros; lia. }
  destruct (runs t) as [|[y n] g].
  - constructor; [simpl; lia | constructor].
  - inversion IH as [|? ? Hn Hg]; inversion IH' as [|? ? Hn' Hg']; subst.
    simpl in Hn, Hn'.
    destruct (x =? y).
    + constructor; [simpl; lia | assumption].
    + constructor; [simpl; lia |]. constructor; [simpl; lia | assumption].
Qed.

Lemma runs_values l : Forall is_byte l -> Forall (fun run => is_byte (fst run)) (runs l).
Proof.
  induction 1 as [|x t Hx Ht IH]; [constructor|].
  cbn [runs]. destruct (runs t) as [|[y n] g].
  - constructor; [exact Hx | constructor].
  - inversion IH as [|? ? Hy Hg]; subst. simpl in Hy.
    destruct (x =? y).
    + constructor; assumption.
    + constructor; [exact Hx |]. constructor; assumption.
Qed.

(** Short byte strings compress to byte strings. *)
Lemma zero_rle_is_byte l :
  Forall is_byte l -> (List.length l < 256)%nat -> Forall is_byte (zero_rle l).
Proof.
  intros Hb Hl. unfold zero_rle.
  pose proof (runs_lengths l) as HL. pose proof (runs_values l Hb) as HV.
  induction (runs l) as [|[v n] rs IH]; [constructor|].
  inversion HL; inversion HV; subst. cbn [flat_map compress_run].
  apply Forall_app. split; [|auto].
  destruct (v =? 0).
  - constructor; [unfold is_byte; lia |].
    constructor; [unfold is_byte; simpl in *; lia | constructor].
  - apply Forall_forall. intros b Hin. apply repeat_spec in Hin. now subst.
Qed.

(** *** Base64 without padding can be undone *)

Lemma b64_index_char i : 0 <= i < 64 -> b64_index (b64_char i) = i.
Proof.
  intro Hi. unfold b64_index, b64_char.
  assert (H : forallb (fun n => Nat.eqb (index_of (nth n b64_alphabet pad) b64_alphabet) n)
                (seq 0 64) = true) by (vm_compute; reflexivity).
  rewrite forallb_forall in H.
  specialize (H (Z.to_nat i)). rewrite Nat.eqb_eq in H. rewrite H; [lia|].
  apply in_seq. lia.
Qed.

Lemma b64_char_not_pad i : 0 <= i < 64 -> b64_char i <> pad.
Proof.
  intro Hi. unfold b64_char.
  assert (H : forallb (fun n => negb (Ascii.eqb (nth n b64_alphabet pad) pad))
                (seq 0 64) = true) by (vm_compute; reflexivity).
  rewrite forallb_forall in H.
  specialize (H (Z.to_nat i) ltac:(apply in_seq; lia)).
  apply negb_true_iff, Ascii.eqb_neq in H. exact H.
Qed.

Lemma rstrip_cons_keep c x t : x <> c -> rstrip c (x :: t) = x :: rstrip c t.
Proof.
  intro Hx. cbn [rstrip]. apply Ascii.eqb_neq in Hx. rewrite Hx.
  destruct (rstrip c t); reflexivity.
Qed.

Lemma list_ind3 {A : Type} (P : list A -> Prop) :
  P [] -> (forall a, P [a]) -> (forall a b, P [a; b]) ->
  (forall a b c rest, P rest -> P (a :: b :: c :: rest)) ->
  forall l, P l.
Proof.
  intros H0 H1 H2 H3.
  assert (H : forall l, P l /\ (forall a, P (a :: l)) /\ (forall a b, P (a :: b :: l))).
  { induction l as [|x l (Ha & Hb & Hc)]; repeat split; auto. }
  intro l. apply H.
Qed.

Ltac byte_bounds :=
  unfold is_byte in *; Z.div_mod_to_equations; lia.

Lemma b64decode_encode bs :
  Forall is_byte bs -> b64decode_nopad (rstrip pad (urlsafe_b64encode bs)) = bs.
Proof.
  induction bs as [|a|a b|a b c rest IH] using list_ind3; intro Hb.
  - reflexivity.
  - inversion Hb as [|? ? Ha _]; subst. cbn [urlsafe_b64encode].
    rewrite !rstrip_cons_keep by (apply b64_char_not_pad; byte_bounds).
    cbn [rstrip b64decode_nopad]. rewrite Ascii.eqb_refl.
    cbn [b64decode_nopad].
    rewrite !b64_index_char by byte_bounds. f_equal. byte_bounds.
  - inversion Hb as [|? ? Ha Hb']; inversion Hb' as [|? ? Hb0 _]; subst.
    cbn [urlsafe_b64encode].
    rewrite !rstrip_cons_keep by (apply b64_char_not_pad; byte_bounds).
    cbn [rstrip b64decode_nopad]. rewrite Ascii.eqb_refl.
    cbn [b64decode_nopad].
    rewrite !b64_index_char by byte_bounds.
    f_equal; [|f_equal]; byte_bounds.
  - inversion Hb as [|? ? Ha Hb']; inversion Hb' as [|? ? Hb0 Hb''];
      inversion Hb'' as [|? ? Hc Hrest]; subst.
    cbn [urlsafe_b64encode].
    rewrite !rstrip_cons_keep by (apply b64_char_not_pad; byte_bounds).
    cbn [b64decode_nopad].
    rewrite !b64_index_char by byte_bounds.
    rewrite IH by assumption.
    f_equal; [|f_equal; [|f_equal]]; byte_bounds.
Qed.

Lemma b64_nopad_inj bs bs' :
  Forall is_byte bs -> Forall is_byte bs' -> b64_nopad bs = b64_nopad bs' -> bs = bs'.
Proof.
  intros H H' E. unfold b64_nopad in E.
  apply (f_equal list_ascii_of_string) in E.
  rewrite !list_ascii_of_string_of_list_ascii in E.
  rewrite <- (b64decode_encode bs H), <- (b64decode_encode bs' H'). now rewrite E.
Qed.


Lemma unpack_new_file_id_return d k r :
  unpack_new_file_id d = Return (k, r) ->
  exists packed,
    pack_iiqq (file_type d) (dc_id d) (media_id d) (access_hash d) = Return packed /\
    k = b64_nopad (zero_rle (packed ++ trailer)) /\
    r = b64_nopad (file_reference d).
Proof.
  unfold unpack_new_file_id. intro H.
  apply bind_return in H as (packed & Hp & H).
  rewrite encode_file_id_spec in H
    by (rewrite (pack_iiqq_length _ _ _ _ _ Hp); lia).
  cbn [bind] in H. injection H as <- <-.
  exists packed. repeat split; trivial.
Qed.

Lemma trailer_is_byte : Forall is_byte trailer.
Proof. repeat constructor; unfold is_byte; lia. Qed.

(** C3. For every descriptor, [unpack_new_file_id] yields as storage key the
    transform of the specification: the four fields packed little-endian
    as int32, int32, int64, int64, followed by the two trailer bytes, every
    maximal run of N zero bytes replaced by the two bytes 0, N and all
    other bytes kept, base64url-encoded with the padding stripped; and as
    reference token the base64url encoding of the raw reference blob with
    the padding stripped. Both sides fail alike when a field does not fit
    its width, and neither fails when all four fit. *)
Theorem unpack_new_file_id_is_spec_transform (d : FileId) :
  unpack_new_file_id d = (key <- storage_key d ;; Return (key, reference_token d))
  /\ (in_range d ->
      exists key, unpack_new_file_id d = Return (key, reference_token d)).
Proof.
  assert (E : unpack_new_file_id d
              = (key <- storage_key d ;; Return (key, reference_token d))).
  { unfold unpack_new_file_id, storage_key, reference_token, encode_file_ref.
    destruct (pack_iiqq _ _ _ _) as [packed|e] eqn:Hp; cbn [bind]; [|reflexivity].
    rewrite encode_file_id_spec
      by (rewrite (pack_iiqq_length _ _ _ _ _ Hp); lia).
    reflexivity. }
  split; [exact E|].
  intro Hr. rewrite E. unfold storage_key.
  destruct (pack_iiqq_in_range d Hr) as [bs ->]. cbn [bind]. eauto.
Qed.

(** C4. Two descriptors that differ in at least one of file_type, dc_id,
    media_id, access_hash never get the same storage key: packing, zero-run
    compression and padding-free base64url are each injective on the
    packed tuples. *)
Theorem storage_key_injective (d1 d2 : FileId) (k1 r1 k2 r2 : string) :
  unpack_new_file_id d1 = Return (k1, r1) ->
  unpack_new_file_id d2 = Return (k2, r2) ->
  identity d1 <> identity d2 ->
  k1 <> k2.
Proof.
  intros H1 H2 Hne Hk.
  apply unpack_new_file_id_return in H1 as (p1 & Hp1 & -> & _).
  apply unpack_new_file_id_return in H2 as (p2 & Hp2 & -> & _).
  apply Hne. unfold identity.
  assert (Hb : forall p a b c d, pack_iiqq a b c d = Return p ->
               Forall is_byte (zero_rle (p ++ trailer))).
  { intros p a b c d Hp. apply zero_rle_is_byte.
    - apply Forall_app. split; [eapply pack_iiqq_is_byte; eassumption|].
      exact trailer_is_byte.
    - rewrite length_app, (pack_iiqq_length _ _ _ _ _ Hp). simpl. lia. }
  apply b64_nopad_inj in Hk; [|eapply Hb; eassumption..].
  apply (f_equal zero_unrle) in Hk. rewrite !zero_unrle_zero_rle in Hk.
  apply app_inv_tail in Hk. subst p2.
  eapply pack_iiqq_inj; eassumption.
Qed.

Lemma storage_key_injective_witness :
  unpack_new_file_id Examples.descriptor_a
    = Return ("BQADBAADFBqZvhwAA53_________FgQ"%string, "AQIDBA"%string)
  /\ unpack_new_file_id Examples.descriptor_b
    = Return ("BQADBAADFBqZvhwABAEABhYE"%string, "AQIDBA"%string)
  /\ "BQADBAADFBqZvhwAA53_________FgQ"%string <> "BQADBAADFBqZvhwABAEABhYE"%string.
Proof.
  split; [vm_compute; reflexivity|].
  split; [vm_compute; reflexivity|].
  apply (storage_key_injective Examples.descriptor_a Examples.descriptor_b _ "AQIDBA"%string _ "AQIDBA"%string).
  - vm_compute; reflexivity.
  - vm_compute; reflexivity.
  - unfold identity, Examples.descriptor_a, Examples.descriptor_b; simpl. intro H; discriminate H.
Defined.

End CodecProofs.

(** * Proofs: saving *)

Module RouterProofs.

Import Store Router RouterMore.

(** No keyword of the call is a declared field, so the construction fails
    for every record. *)
Lemma new_model_raises fid fref name media :
  new_model fid fref name media = Raise ValidationError.
Proof. reflexivity. Qed.

(** The loop answers the error code and leaves the shards alone: either no
    shard is open, or the first open one gets a construction, which fails. *)
Lemma save_loop_answers_err env models st fid fref name media :
  forall calls,
    fst (save_loop env models st fid fref name media calls)
    = (Return "err"%string, st).
Proof.
  induction models as [|X rest IH]; intro calls; cbn [save_loop]; [reflexivity|].
  destruct (dbstats env X) as [used|e]; [|apply IH].
  destruct (used <? ceiling); [|apply IH].
  rewrite new_model_raises. reflexivity.
Qed.

Lemma save_file_unpacked env st media fid fref :
  Codec.unpack_new_file_id (m_file_id media) = Return (fid, fref) ->
  save_file env st media = (Return "err"%string, st).
Proof.
  intro Hu. unfold save_file, save_file_run. rewrite Hu.
  apply save_loop_answers_err.
Qed.

Lemma save_file_codec_raises env st media e :
  Codec.unpack_new_file_id (m_file_id media) = Raise e ->
  save_file env st media = (Raise e, st).
Proof.
  intro Hu. unfold save_file, save_file_run. now rewrite Hu.
Qed.

(** What a call of [save_file] can come to. *)
Lemma save_file_outcomes env st media :
  (exists e, Codec.unpack_new_file_id (m_file_id media) = Raise e /\
             save_file env st media = (Raise e, st))
  \/ save_file env st media = (Return "err"%string, st).
Proof.
  destruct (Codec.unpack_new_file_id (m_file_id media)) as [[fid fref]|e] eqn:Hu.
  - right. eapply save_file_unpacked; eassumption.
  - left. exists e. split; [reflexivity|]. now apply save_file_codec_raises.
Qed.




(** C7 (what the code does). The first shard already holds the
    key of the media and has room. [save_file] answers the error code, not
    the duplicate code: the only calls are the size check and the
    construction of the record, which fails, so the commit, where the
    duplicate would be noticed, is not reached. It is the same when the
    store would fail the commit for a reason of its own. No call of
    [save_file] raises anything but what the codec raised before the first
    shard was probed. *)
Theorem save_file_duplicate_answers_err :
  has_key Examples.key_a (db1 Examples.holding_a) = true
  /\ Codec.unpack_new_file_id (m_file_id Examples.media_a_again)
     = Return (Examples.key_a, "AQIDBA"%string)
  /\ save_file (Examples.healthy 0 0 0) Examples.holding_a Examples.media_a_again
     = (Return "err"%string, Examples.holding_a)
  /\ save_calls (Examples.healthy 0 0 0) Examples.holding_a Examples.media_a_again
     = [SizeCheck MediaDB1; NewModel MediaDB1]
  /\ save_file Examples.first_commit_fails Examples.empty_stores Examples.media_a
     = (Return "err"%string, Examples.empty_stores)
  /\ forall env st media e,
      fst (save_file env st media) = Raise e ->
      Codec.unpack_new_file_id (m_file_id media) = Raise e.
Proof.
  do 5 (split; [vm_compute; reflexivity|]).
  intros env st media e H.
  destruct (save_file_outcomes env st media) as [(e' & Hu & Hs) | Hs];
    rewrite Hs in H; cbn [fst] in H.
  - congruence.
  - discriminate.
Qed.

(** C9 (what the code does). Two saves of the same file into
    empty shards with room: each answers the error code, and afterwards no
    shard holds the key. In general a call of [save_file] leaves every
    shard as it was and answers neither saved nor duplicate. *)
Theorem save_twice_answers_err_twice :
  Codec.unpack_new_file_id (m_file_id Examples.media_a)
    = Return (Examples.key_a, "AQIDBA"%string)
  /\ Codec.unpack_new_file_id (m_file_id Examples.media_a_again)
    = Return (Examples.key_a, "AQIDBA"%string)
  /\ save_file (Examples.healthy 0 0 0) Examples.empty_stores Examples.media_a
    = (Return "err"%string, Examples.empty_stores)
  /\ save_file (Examples.healthy 0 0 0) Examples.empty_stores Examples.media_a_again
    = (Return "err"%string, Examples.empty_stores)
  /\ count_key Examples.key_a (db1 Examples.empty_stores) = 0%nat
  /\ forall env st media,
      snd (save_file env st media) = st /\
      fst (save_file env st media) <> Return "suc"%string /\
      fst (save_file env st media) <> Return "dup"%string.
Proof.
  do 5 (split; [vm_compute; reflexivity|]).
  intros env st media.
  destruct (save_file_outcomes env st media) as [(e & _ & ->) | ->]; cbn [fst snd];
    repeat split; discriminate.
Qed.

End RouterProofs.

(** * Proofs: searching *)

Module SearchProofs.

Import Store Search SearchSpec.

Lemma bind_ok {A B : Type} (m : PyResult A) (k : A -> PyResult B) (b : B) :
  bind m k = Return b -> exists a, m = Return a /\ k a = Return b.
Proof.
  destruct m as [a|e]; simpl; intro H; [exists a; split; trivial | discriminate].
Qed.

(** *** Slices *)

Lemma py_slice_length {A : Type} (l : list A) (a m : Z) :
  0 <= m -> Z.of_nat (List.length (py_slice l a (a + m))) <= m.
Proof.
  intro Hm. unfold py_slice, clamp_index.
  rewrite length_firstn.
  destruct (a <? 0) eqn:Ea; destruct (a + m <? 0) eqn:Eb;
    try apply Z.ltb_lt in Ea; try apply Z.ltb_ge in Ea;
    try apply Z.ltb_lt in Eb; try apply Z.ltb_ge in Eb; lia.
Qed.

Lemma py_slice_nil {A : Type} (a b : Z) : py_slice (@nil A) a b = [].
Proof. unfold py_slice. now rewrite skipn_nil, firstn_nil. Qed.

(** *** Fetching documents *)

Lemma build_from_mongo_raises d : build_from_mongo d = Raise UnknownFieldInDBError.
Proof. reflexivity. Qed.

Lemma build_all_return raw l : build_all raw = Return l -> raw = [] /\ l = [].
Proof.
  destruct raw as [|d t]; cbn [build_all].
  - intro H; injection H as <-. split; reflexivity.
  - rewrite build_from_mongo_raises. discriminate.
Qed.

Lemma to_list_return cursor n l :
  to_list cursor n = Return l ->
  l = [] /\ 0 <= n /\ firstn (Z.to_nat n) cursor = [].
Proof.
  unfold to_list. destruct (n <? 0) eqn:E; [discriminate|].
  apply Z.ltb_ge in E. intro H. apply build_all_return in H as [H1 H2]. auto.
Qed.

Lemma to_list_nothing cursor n :
  0 <= n -> firstn (Z.to_nat n) cursor = [] -> to_list cursor n = Return [].
Proof.
  intros Hn Hf. unfold to_list.
  replace (n <? 0) with false by (symmetry; apply Z.ltb_ge; lia).
  now rewrite Hf.
Qed.

Section WithRegex.

Context {RE : Regex}.

Lemma lang_filter_nil lang : lang_filter lang [] = [].
Proof.
  unfold lang_filter. destruct lang as [l|]; [|reflexivity].
  destruct (PyStr.truthy l); reflexivity.
Qed.

(** The loop, when it comes to an end, has added nothing to the results:
    every fetch was empty. *)
Lemma search_loop_return ms st q M lang :
  forall results total r t,
    search_loop ms st q M lang results total = Return (r, t) ->
    r = results /\ t = total + count_in st q ms /\
    (ms <> [] -> 0 <= M) /\
    forall X, In X ms -> firstn (Z.to_nat (M * 3)) (find_newest_first q (coll X st)) = [].
Proof.
  induction ms as [|X rest IH]; intros results total r t H;
    cbn [search_loop count_in fold_right] in *.
  - injection H as <- <-. repeat split; try lia. contradiction. intros X [].
  - apply bind_ok in H as (fetched & Hf & H).
    apply to_list_return in Hf as (-> & HM & Hfirst).
    rewrite lang_filter_nil, app_nil_r in H.
    apply IH in H as (-> & -> & _ & Hrest).
    repeat split.
    + unfold count_in. lia.
    + intros _. lia.
    + intros Y [<-|HY]; [exact Hfirst | now apply Hrest].
Qed.

Lemma search_loop_nothing ms st q M lang :
  0 <= M ->
  (forall X, In X ms -> firstn (Z.to_nat (M * 3)) (find_newest_first q (coll X st)) = []) ->
  forall results total,
    search_loop ms st q M lang results total
    = Return (results, total + count_in st q ms).
Proof.
  intros HM. induction ms as [|X rest IH]; intros Hall results total;
    cbn [search_loop count_in fold_right].
  - now rewrite Z.add_0_r.
  - rewrite to_list_nothing; [|lia | apply Hall; now left].
    cbn [bind]. rewrite lang_filter_nil, app_nil_r.
    rewrite IH by (intros; apply Hall; now right).
    f_equal. f_equal. unfold count_in. lia.
Qed.

Lemma selected_is_fetched q c d M :
  0 < M -> In d c -> selected q d = true ->
  firstn (Z.to_nat (M * 3)) (find_newest_first q c) <> [].
Proof.
  intros HM Hin Hs. unfold find_newest_first.
  assert (Hd : In d (rev (filter (selected q) c))).
  { apply -> in_rev. apply filter_In. auto. }
  destruct (rev (filter (selected q) c)) as [|x t]; [destruct Hd|].
  destruct (Z.to_nat (M * 3)) as [|n] eqn:E; [lia|]. discriminate.
Qed.

Lemma search_loop_raises ms st q M lang :
  0 < M ->
  (exists X d, In X ms /\ In d (coll X st) /\ selected q d = true) ->
  forall results total, exists e,
    search_loop ms st q M lang results total = Raise e.
Proof.
  intros HM. induction ms as [|Y rest IH]; intros (X & d & HX & Hd & Hs) results total.
  - destruct HX.
  - cbn [search_loop].
    destruct (to_list (find_newest_first q (coll Y st)) (M * 3)) as [fetched|e] eqn:Hf;
      [|cbn [bind]; eauto].
    cbn [bind]. apply to_list_return in Hf as (_ & _ & Hfirst).
    destruct HX as [<-|HX].
    + exfalso. now apply (selected_is_fetched q (coll Y st) d M).
    + apply IH. eauto.
Qed.

(** What a call that returns has gone through. *)
Lemma get_search_results_return st query M offset lang files next total :
  get_search_results st query M offset lang = Return (files, next, total) ->
  exists regex results,
    name_filter (PyStr.strip query) = Return regex /\
    search_loop [MediaDB1; MediaDB2; MediaDB3] st (by_name regex) M lang [] 0
      = Return ([], total) /\
    sort_results [] = Return results /\
    files = py_slice results offset (offset + M) /\
    next = (if offset + M >=? total then NoMore else Offset (offset + M)) /\
    total = total_count st (by_name regex) /\
    0 <= M.
Proof.
  unfold get_search_results. intro H.
  apply bind_ok in H as (regex & Hr & H).
  apply bind_ok in H as ([results total'] & Hl & H).
  fold (by_name regex) in Hl.
  pose proof (search_loop_return _ _ _ _ _ _ _ _ _ Hl) as (Hres & Ht & HM & _).
  subst results.
  apply bind_ok in H as (sorted & Hs & H).
  injection H as Hfiles Hnext Htotal.
  rewrite Htotal in Hl, Ht, Hnext. rewrite Z.add_0_l in Ht.
  exists regex, sorted.
  split; [exact Hr|]. split; [exact Hl|].
  split; [exact Hs|]. split; [symmetry; exact Hfiles|].
  split; [symmetry; exact Hnext|].
  split; [exact Ht|].
  apply HM. discriminate.
Qed.

Lemma get_search_results_raises st query M offset lang regex :
  name_filter (PyStr.strip query) = Return regex ->
  0 < M ->
  holds_selected st (by_name regex) ->
  exists e, get_search_results st query M offset lang = Raise e.
Proof.
  intros Hr HM (X & d & Hd & Hs). unfold get_search_results.
  rewrite Hr. cbn [bind]. fold (by_name regex).
  destruct (search_loop_raises [MediaDB1; MediaDB2; MediaDB3] st (by_name regex) M lang HM)
    with (results := @nil MediaDoc) (total := 0) as [e He].
  - exists X, d. split; [destruct X; simpl; auto | auto].
  - rewrite He. cbn [bind]. eauto.
Qed.


(** C6 (as amended). When the pattern built from the query is rejected with
    [re.error]: the flagged-file lookup does not fall back, it returns no
    record and the total 0, and does not raise. The paginated search goes
    on with the stripped query text itself as the display_name filter,
    which the store compares with the whole name: whenever the call
    returns, the total it reports is the number of stored records whose
    display_name is exactly the query text; and it does return, with an
    empty page and the total 0, when max_results >= 0 and no stored record
    has that name. *)
Theorem rejected_pattern_outcomes
    (st : Stores) (query : string) (max_results offset : Z)
    (lang file_type : option string) :
  re_compile (raw_pattern (PyStr.strip query)) = Raise ReError ->
  get_bad_files st query file_type = Return ([], 0)
  /\ (forall files next_offset total_results,
        get_search_results st query max_results offset lang
          = Return (files, next_offset, total_results) ->
        total_results
        = Z.of_nat (List.length (named_exactly st (PyStr.strip query))))
  /\ (0 <= max_results ->
      named_exactly st (PyStr.strip query) = [] ->
      get_search_results st query max_results offset lang
      = Return ([], (if offset + max_results >=? 0 then NoMore
                     else Offset (offset + max_results)), 0)).
Proof.
  intro Hc.
  assert (Hf : name_filter (PyStr.strip query) = Return (ByString (PyStr.strip query))).
  { unfold name_filter. now rewrite Hc. }
  assert (Hq : forall d, selected (by_name (ByString (PyStr.strip query))) d
                         = String.eqb (file_name d) (PyStr.strip query)).
  { intro d. unfold selected, by_name. cbn [on_file_name on_file_type name_selected].
    apply andb_true_r. }
  assert (Ht : total_count st (by_name (ByString (PyStr.strip query)))
               = Z.of_nat (List.length (named_exactly st (PyStr.strip query)))).
  { unfold total_count, count_in, shards, count_documents, named_exactly.
    cbn [fold_right coll]. rewrite !filter_app, !length_app.
    rewrite !(filter_ext _ _ Hq). lia. }
  split; [|split].
  - unfold get_bad_files. now rewrite Hc.
  - intros files next total H.
    apply get_search_results_return in H
      as (regex & results & Hr & _ & _ & _ & _ & -> & _).
    rewrite Hf in Hr. injection Hr as <-. exact Ht.
  - intros HM Hnone. unfold get_search_results. rewrite Hf. cbn [bind].
    fold (by_name (ByString (PyStr.strip query))).
    rewrite search_loop_nothing; trivial.
    + cbn [bind sort_results]. rewrite py_slice_nil.
      change (count_in st (by_name (ByString (PyStr.strip query)))
                [MediaDB1; MediaDB2; MediaDB3])
        with (total_count st (by_name (ByString (PyStr.strip query)))).
      rewrite Ht, Hnone. reflexivity.
    + intros X _. unfold find_newest_first.
      assert (E : filter (selected (by_name (ByString (PyStr.strip query)))) (coll X st) = []).
      { rewrite (filter_ext _ _ Hq).
        unfold named_exactly in Hnone. rewrite !filter_app in Hnone.
        apply app_eq_nil in Hnone as [H1 Hnone].
        apply app_eq_nil in Hnone as [H2 H3].
        destruct X; assumption. }
      rewrite E. cbn [rev]. apply firstn_nil.
Qed.

End WithRegex.

(** *** The code on concrete stores *)

Import Examples.


(** C6 (counterexample). The pattern built from the query "(" is rejected
    with [re.error]. One stored name contains the query text, yet the
    flagged-file lookup returns nothing, and so does the paginated search
    (no stored name is equal to the query text). A query whose pattern is
    rejected with [OverflowError] makes both raise. *)
Lemma bad_files_lookup_does_not_fall_back :
  re_compile (raw_pattern (PyStr.strip "(")) = Raise ReError
  /\ literal_substring_matches four_in_first "(" = [doc4]
  /\ get_bad_files four_in_first "(" None = Return ([], 0)
  /\ get_search_results four_in_first "(" 10 0 None = Return ([], NoMore, 0)
  /\ get_bad_files four_in_first "x{4294967296}" None = Raise OverflowError
  /\ get_search_results four_in_first "x{4294967296}" 10 0 None
     = Raise OverflowError.
Proof. repeat split; vm_compute; reflexivity. Qed.

Lemma rejected_pattern_outcomes_witness :
  get_bad_files four_in_first "(" (Some "video"%string) = Return ([], 0)
  /\ (forall files next_offset total_results,
        get_search_results four_in_first "(" 10 0 None
          = Return (files, next_offset, total_results) ->
        total_results
        = Z.of_nat (List.length (named_exactly four_in_first (PyStr.strip "("))))
  /\ (0 <= 10 ->
      named_exactly four_in_first (PyStr.strip "(") = [] ->
      get_search_results four_in_first "(" 10 0 None
      = Return ([], (if 0 + 10 >=? 0 then NoMore else Offset (0 + 10)), 0)).
Proof.
  apply (rejected_pattern_outcomes four_in_first "(" 10 0 None (Some "video"%string)).
  vm_compute; reflexivity.
Defined.




End SearchProofs.
(** * Further facts: the identifier codec *)

Module CodecFacts.

Import Codec CodecSpec CodecMore CodecProofs.

Lemma encodable_cons_nonzero x t : x <> 0 -> encodable (x :: t) = encodable t.
Proof.
  intro Hx. unfold encodable. cbn [runs].
  assert (Hr : forall n, encodable_run (x, n) = true).
  { intro n. unfold encodable_run. cbn [fst].
    apply Z.eqb_neq in Hx. now rewrite Hx. }
  destruct (runs t) as [|[y n] g].
  - cbn [forallb]. now rewrite Hr.
  - destruct (x =? y) eqn:E.
    + apply Z.eqb_eq in E as <-. cbn [forallb]. now rewrite !Hr.
    + cbn [forallb]. now rewrite Hr.
Qed.

Lemma encodable_zeros_then_nonzero k x t :
  x <> 0 ->
  encodable (repeat 0 (S k) ++ x :: t)
  = (Z.of_nat (S k) <? 256) && encodable (x :: t).
Proof.
  intro Hx. unfold encodable. rewrite runs_zeros_then_nonzero by assumption.
  reflexivity.
Qed.

Lemma bytes1_of_nat k :
  bytes1 (Z.of_nat (S k))
  = if Z.of_nat (S k) <? 256 then Return [Z.of_nat (S k)] else Raise ValueError.
Proof.
  unfold bytes1.
  replace (0 <=? Z.of_nat (S k)) with true by (symmetry; apply Z.leb_le; lia).
  reflexivity.
Qed.

(** The loop on any input that ends in a non-zero byte. *)
Lemma encode_loop_total s t :
  t <> 0 ->
  forall (n : nat) (r : list Z),
    encode_loop (s ++ [t]) (Z.of_nat n) r
    = if encodable (repeat 0 n ++ s ++ [t])
      then Return (r ++ zero_rle (repeat 0 n ++ s ++ [t]))
      else Raise ValueError.
Proof.
  intro Ht. induction s as [|i s IH]; intros n r; cbn [app encode_loop].
  - apply Z.eqb_neq in Ht as Ht'. rewrite Ht'.
    destruct n as [|n].
    + cbn [Z.of_nat Z.eqb repeat app encode_loop].
      rewrite encodable_cons_nonzero, zero_rle_cons_nonzero by assumption.
      reflexivity.
    + replace (Z.of_nat (S n) =? 0) with false by (symmetry; apply Z.eqb_neq; lia).
      rewrite bytes1_of_nat, encodable_zeros_then_nonzero by assumption.
      rewrite encodable_cons_nonzero by assumption.
      destruct (Z.of_nat (S n) <? 256); [|reflexivity].
      cbn [bind encode_loop andb forallb encodable runs].
      rewrite zero_rle_zeros_then_nonzero, zero_rle_cons_nonzero by assumption.
      rewrite <- !app_assoc. reflexivity.
  - destruct (i =? 0) eqn:Ei.
    + apply Z.eqb_eq in Ei as ->.
      replace (Z.of_nat n + 1) with (Z.of_nat (S n)) by lia.
      rewrite IH. now rewrite repeat_snoc_app.
    + apply Z.eqb_neq in Ei.
      destruct n as [|n].
      * cbn [Z.of_nat Z.eqb repeat app].
        change (encode_loop (s ++ [t]) 0) with (encode_loop (s ++ [t]) (Z.of_nat 0)).
        rewrite IH. cbn [repeat app].
        rewrite encodable_cons_nonzero, zero_rle_cons_nonzero by assumption.
        rewrite <- app_assoc. reflexivity.
      * replace (Z.of_nat (S n) =? 0) with false by (symmetry; apply Z.eqb_neq; lia).
        rewrite bytes1_of_nat, encodable_zeros_then_nonzero by assumption.
        rewrite encodable_cons_nonzero by assumption.
        destruct (Z.of_nat (S n) <? 256); [|reflexivity].
        cbn [bind andb].
        change (encode_loop (s ++ [t]) 0) with (encode_loop (s ++ [t]) (Z.of_nat 0)).
        rewrite IH.
        change (repeat 0 0 ++ s ++ [t]) with (s ++ [t]).
        rewrite zero_rle_zeros_then_nonzero, zero_rle_cons_nonzero by assumption.
        rewrite <- !app_assoc. reflexivity.
Qed.

(** The loop on a string followed by the trailer. *)
Lemma encode_loop_on_trailer s :
  encode_loop (s ++ [22] ++ [4]) 0 []
  = if encodable (s ++ trailer)
    then Return (zero_rle (s ++ trailer))
    else Raise ValueError.
Proof.
  unfold trailer.
  change (s ++ [22] ++ [4]) with (s ++ [22; 4]).
  replace (s ++ [22; 4]) with ((s ++ [22]) ++ [4]) by (now rewrite <- app_assoc).
  change (encode_loop ((s ++ [22]) ++ [4]) 0)
    with (encode_loop ((s ++ [22]) ++ [4]) (Z.of_nat 0)).
  rewrite encode_loop_total by lia. reflexivity.
Qed.

(** X1. On any byte string [encode_file_id] fails with [ValueError] exactly
    when the string has a run of 256 or more zero bytes, and otherwise
    returns the padding-free base64url text of the zero-run compression of
    the string followed by the trailer 22, 4. *)
Theorem encode_file_id_total (s : list Z) :
  encode_file_id s
  = if encodable (s ++ trailer)
    then Return (b64_nopad (zero_rle (s ++ trailer)))
    else Raise ValueError.
Proof.
  unfold encode_file_id. rewrite encode_loop_on_trailer.
  destruct (encodable (s ++ trailer)); reflexivity.
Qed.

Lemma encode_loop_skip_zeros k rest n r :
  encode_loop (repeat 0 k ++ rest) n r = encode_loop rest (n + Z.of_nat k) r.
Proof.
  revert n. induction k as [|k IH]; intro n.
  - cbn [repeat app Z.of_nat]. now rewrite Z.add_0_r.
  - cbn [repeat app encode_loop Z.eqb]. rewrite IH. f_equal. lia.
Qed.

Lemma encode_loop_overlong_run rest :
  (exists b, In b rest /\ b <> 0) ->
  forall n r, 256 <= n -> encode_loop rest n r = Raise ValueError.
Proof.
  induction rest as [|i rest IH]; intros (b & Hin & Hb) n r Hn.
  - destruct Hin.
  - cbn [encode_loop]. destruct (i =? 0) eqn:Ei.
    + apply Z.eqb_eq in Ei as ->. destruct Hin as [<-|Hin]; [contradiction|].
      apply IH; [eauto | lia].
    + replace (n =? 0) with false by (symmetry; apply Z.eqb_neq; lia).
      unfold bytes1.
      replace (n <? 256) with false by (symmetry; apply Z.ltb_ge; lia).
      now rewrite andb_false_r.
Qed.

Lemma encode_loop_raises_value_error l :
  forall n r e, encode_loop l n r = Raise e -> e = ValueError.
Proof.
  induction l as [|i l IH]; intros n r e; cbn [encode_loop]; [discriminate|].
  destruct (i =? 0); [apply IH|].
  destruct (n =? 0); [apply IH|].
  unfold bytes1. destruct (_ && _); cbn [bind]; [apply IH|].
  intro H; now injection H as <-.
Qed.

Lemma encode_loop_after_prefix p rest :
  (forall n r, 256 <= n -> encode_loop rest n r = Raise ValueError) ->
  forall k n r, 0 <= n -> (256 <= k)%nat ->
    encode_loop (p ++ repeat 0 k ++ rest) n r = Raise ValueError.
Proof.
  intros Hrest k. induction p as [|i p IH]; intros n r Hn Hk.
  - cbn [app]. rewrite encode_loop_skip_zeros. apply Hrest. lia.
  - cbn [app encode_loop]. destruct (i =? 0); [apply IH; lia|].
    destruct (n =? 0); [apply IH; lia|].
    unfold bytes1. destruct (_ && _); cbn [bind]; [apply IH; lia | reflexivity].
Qed.

(** X2. A byte string that holds 256 or more consecutive zero bytes, wherever
    they stand, has no storage key: [encode_file_id] raises [ValueError]. *)
Theorem encode_file_id_rejects_long_zero_run (p q : list Z) (k : nat) :
  (256 <= k)%nat ->
  encode_file_id (p ++ repeat 0 k ++ q) = Raise ValueError.
Proof.
  intro Hk. unfold encode_file_id.
  rewrite <- !app_assoc.
  rewrite encode_loop_after_prefix; trivial; [|lia].
  apply encode_loop_overlong_run.
  exists 4. split; [|lia].
  apply in_or_app. right. simpl. auto.
Qed.

Lemma encode_file_id_rejects_long_zero_run_witness :
  encode_file_id ([7] ++ repeat 0 256 ++ [9]) = Raise ValueError.
Proof.
  apply (encode_file_id_rejects_long_zero_run [7] [9] 256). apply le_n.
Defined.

(** Byte strings whose zero runs are short compress to byte strings. *)
Lemma zero_rle_is_byte_encodable l :
  Forall is_byte l -> encodable l = true -> Forall is_byte (zero_rle l).
Proof.
  intros Hb He. unfold zero_rle, encodable in *.
  pose proof (runs_values l Hb) as HV.
  induction (runs l) as [|[v n] rs IH]; [constructor|].
  inversion HV as [|? ? Hv HV']; subst. cbn [fst] in Hv.
  cbn [forallb] in He. apply andb_true_iff in He as [Hrun He].
  cbn [flat_map compress_run]. apply Forall_app. split; [|auto].
  unfold encodable_run in Hrun. cbn [fst snd] in Hrun.
  destruct (v =? 0) eqn:Ev.
  - cbn [negb orb] in Hrun. apply Z.ltb_lt in Hrun.
    constructor; [unfold is_byte; lia|].
    constructor; [unfold is_byte; lia | constructor].
  - apply Forall_forall. intros b Hin. apply repeat_spec in Hin. now subst.
Qed.

(** X3. [encode_file_id] is injective on byte strings: two byte strings with
    the same storage key are equal. *)
Theorem encode_file_id_injective (s1 s2 : list Z) (key : string) :
  Forall is_byte s1 -> Forall is_byte s2 ->
  encode_file_id s1 = Return key -> encode_file_id s2 = Return key ->
  s1 = s2.
Proof.
  intros H1 H2 E1 E2. unfold encode_file_id in E1, E2.
  rewrite encode_loop_on_trailer in E1, E2.
  destruct (encodable (s1 ++ trailer)) eqn:Hc1; [|discriminate].
  destruct (encodable (s2 ++ trailer)) eqn:Hc2; [|discriminate].
  cbn [bind] in E1, E2.
  injection E1 as E1. injection E2 as E2. rewrite <- E2 in E1.
  apply b64_nopad_inj in E1.
  - apply (f_equal zero_unrle) in E1. rewrite !zero_unrle_zero_rle in E1.
    now apply app_inv_tail in E1.
  - apply zero_rle_is_byte_encodable; [|assumption].
    apply Forall_app. split; [assumption | exact trailer_is_byte].
  - apply zero_rle_is_byte_encodable; [|assumption].
    apply Forall_app. split; [assumption | exact trailer_is_byte].
Qed.

Lemma encode_file_id_injective_witness :
  encode_file_id [0; 0; 7] = Return "AAIHFgQ"%string /\ [0; 0; 7] = [0; 0; 7].
Proof.
  split; [vm_compute; reflexivity|].
  apply (encode_file_id_injective [0; 0; 7] [0; 0; 7] "AAIHFgQ"%string).
  - repeat constructor; unfold is_byte; lia.
  - repeat constructor; unfold is_byte; lia.
  - vm_compute; reflexivity.
  - vm_compute; reflexivity.
Defined.

(** X4. [encode_file_ref] is injective on byte strings: two reference blobs
    with the same token are equal. *)
Theorem encode_file_ref_injective (ref1 ref2 : list Z) :
  Forall is_byte ref1 -> Forall is_byte ref2 ->
  encode_file_ref ref1 = encode_file_ref ref2 -> ref1 = ref2.
Proof. unfold encode_file_ref. apply b64_nopad_inj. Qed.

Lemma encode_file_ref_injective_witness :
  encode_file_ref [1; 2; 3; 4] = "AQIDBA"%string /\ [1; 2; 3; 4] = [1; 2; 3; 4].
Proof.
  split; [vm_compute; reflexivity|].
  apply (encode_file_ref_injective [1; 2; 3; 4] [1; 2; 3; 4]).
  - repeat constructor; unfold is_byte; lia.
  - repeat constructor; unfold is_byte; lia.
  - reflexivity.
Defined.


Lemma b64_char_in_alphabet i : 0 <= i < 64 -> In (b64_char i) b64_alphabet.
Proof.
  intro Hi. unfold b64_char. apply nth_In.
  change (List.length b64_alphabet) with 64%nat. lia.
Qed.

(** Stripping the padding of an encoding of bytes: the shape of the text. *)
Lemma nopad_chars bs :
  Forall is_byte bs ->
  Forall (fun c => In c b64_alphabet) (rstrip pad (urlsafe_b64encode bs)) /\
  List.length (rstrip pad (urlsafe_b64encode bs)) = ((4 * List.length bs + 2) / 3)%nat.
Proof.
  induction bs as [|a|a b|a b c rest IH] using list_ind3; intro Hb.
  - split; [constructor | reflexivity].
  - inversion Hb as [|? ? Ha _]; subst. cbn [urlsafe_b64encode].
    rewrite !rstrip_cons_keep by (apply b64_char_not_pad; byte_bounds).
    cbn [rstrip]. rewrite Ascii.eqb_refl. split; [|reflexivity].
    repeat (constructor; [apply b64_char_in_alphabet; byte_bounds|]). constructor.
  - inversion Hb as [|? ? Ha Hb']; inversion Hb' as [|? ? Hb0 _]; subst.
    cbn [urlsafe_b64encode].
    rewrite !rstrip_cons_keep by (apply b64_char_not_pad; byte_bounds).
    cbn [rstrip]. rewrite Ascii.eqb_refl. split; [|reflexivity].
    repeat (constructor; [apply b64_char_in_alphabet; byte_bounds|]). constructor.
  - inversion Hb as [|? ? Ha Hb']; inversion Hb' as [|? ? Hb0 Hb''];
      inversion Hb'' as [|? ? Hc Hrest]; subst.
    destruct (IH Hrest) as [IHc IHl].
    cbn [urlsafe_b64encode].
    rewrite !rstrip_cons_keep by (apply b64_char_not_pad; byte_bounds).
    split.
    + repeat (constructor; [apply b64_char_in_alphabet; byte_bounds|]). exact IHc.
    + cbn [List.length]. rewrite IHl.
      replace (4 * S (S (S (List.length rest))) + 2)%nat
        with (4 * List.length rest + 2 + 4 * 3)%nat by lia.
      rewrite Nat.div_add by lia. lia.
Qed.

Lemma length_string_of_list (l : list ascii) :
  String.length (string_of_list_ascii l) = List.length l.
Proof. induction l as [|c l IH]; simpl; [reflexivity | now rewrite IH]. Qed.

(** X5. The reference token of a blob of n bytes has exactly
    (4 n + 2) / 3 characters (integer division): the base64 text without its
    padding. *)
Theorem encode_file_ref_length (file_ref : list Z) :
  Forall is_byte file_ref ->
  String.length (encode_file_ref file_ref)
  = ((4 * List.length file_ref + 2) / 3)%nat.
Proof.
  intro Hb. unfold encode_file_ref, b64_nopad.
  rewrite length_string_of_list. now apply nopad_chars.
Qed.

Lemma encode_file_ref_length_witness :
  String.length (encode_file_ref [1; 2; 3; 4]) = 6%nat.
Proof.
  apply (encode_file_ref_length [1; 2; 3; 4]).
  repeat constructor; unfold is_byte; lia.
Defined.

(** X6. Both strings [unpack_new_file_id] returns are made of the 64
    characters of the URL-safe alphabet only (letters, digits, [-] and [_]):
    no padding character and nothing a URL would need to escape. *)
Theorem unpack_new_file_id_url_safe (d : FileId) (key token : string) :
  Forall is_byte (file_reference d) ->
  unpack_new_file_id d = Return (key, token) ->
  url_safe key /\ url_safe token.
Proof.
  intros Hr H. apply unpack_new_file_id_return in H as (packed & Hp & -> & ->).
  unfold url_safe, b64_nopad. rewrite !list_ascii_of_string_of_list_ascii.
  split; apply nopad_chars; [|assumption].
  apply zero_rle_is_byte.
  - apply Forall_app. split; [eapply pack_iiqq_is_byte; eassumption|].
    exact trailer_is_byte.
  - rewrite length_app, (pack_iiqq_length _ _ _ _ _ Hp). simpl. lia.
Qed.

Lemma unpack_new_file_id_url_safe_witness :
  url_safe Examples.key_a /\ url_safe "AQIDBA".
Proof.
  apply (unpack_new_file_id_url_safe Examples.descriptor_a).
  - repeat constructor; unfold is_byte; simpl; lia.
  - vm_compute; reflexivity.
Defined.

Lemma pack_signed_out_of_range k v :
  ~ (- (2 ^ (8 * Z.of_nat k) / 2) <= v < 2 ^ (8 * Z.of_nat k) / 2) ->
  pack_signed k v = Raise StructError.
Proof.
  intro H. unfold pack_signed.
  destruct (_ && _) eqn:E; [|reflexivity].
  apply andb_true_iff in E as [E1 E2].
  apply Z.leb_le in E1. apply Z.ltb_lt in E2. exfalso. apply H. lia.
Qed.

Lemma pack_signed_raises k v e : pack_signed k v = Raise e -> e = StructError.
Proof.
  unfold pack_signed. destruct (_ && _); [discriminate|].
  intro H; now injection H as <-.
Qed.

(** X7. [unpack_new_file_id] returns exactly for the descriptors whose
    file_type and dc_id fit a signed 32-bit integer and whose media_id and
    access_hash fit a signed 64-bit integer; for every other descriptor it
    raises [struct.error], and it raises nothing else. *)
Theorem unpack_new_file_id_fails_iff_out_of_range (d : FileId) :
  (in_range d <-> exists key, unpack_new_file_id d = Return (key, reference_token d))
  /\ (~ in_range d <-> unpack_new_file_id d = Raise StructError)
  /\ (forall e, unpack_new_file_id d = Raise e -> e = StructError).
Proof.
  assert (Hin : in_range d ->
                exists key, unpack_new_file_id d = Return (key, reference_token d)).
  { intro Hr. destruct (pack_iiqq_in_range d Hr) as [bs Hp].
    unfold unpack_new_file_id. rewrite Hp. cbn [bind].
    rewrite encode_file_id_spec by (rewrite (pack_iiqq_length _ _ _ _ _ Hp); lia).
    cbn [bind]. eauto. }
  assert (Hout : ~ in_range d -> unpack_new_file_id d = Raise StructError).
  { intro Hn. unfold unpack_new_file_id, pack_iiqq.
    destruct (pack_signed 4 (file_type d)) as [ba|e] eqn:Ea;
      [|now rewrite (pack_signed_raises _ _ _ Ea)].
    destruct (pack_signed 4 (dc_id d)) as [bb|e] eqn:Eb;
      [|now rewrite (pack_signed_raises _ _ _ Eb)].
    destruct (pack_signed 8 (media_id d)) as [bc|e] eqn:Ec;
      [|now rewrite (pack_signed_raises _ _ _ Ec)].
    destruct (pack_signed 8 (access_hash d)) as [bd|e] eqn:Ed;
      [|now rewrite (pack_signed_raises _ _ _ Ed)].
    exfalso. apply Hn.
    apply pack_signed_return in Ea as [_ Ra], Eb as [_ Rb], Ec as [_ Rc], Ed as [_ Rd].
    change (2 ^ (8 * Z.of_nat 4) / 2) with (2 ^ 31) in *.
    change (2 ^ (8 * Z.of_nat 8) / 2) with (2 ^ 63) in *.
    unfold in_range. lia. }
  assert (Hdec : in_range d \/ ~ in_range d).
  { unfold in_range. lia. }
  split; [split | split; [split|]].
  - exact Hin.
  - intros [key Hk]. destruct Hdec as [Hr|Hn]; [assumption|].
    rewrite (Hout Hn) in Hk. discriminate.
  - exact Hout.
  - intros He Hr. destruct (Hin Hr) as [key Hk]. rewrite Hk in He. discriminate.
  - intros e He. destruct Hdec as [Hr|Hn].
    + destruct (Hin Hr) as [key Hk]. rewrite Hk in He. discriminate.
    + rewrite (Hout Hn) in He. now injection He as <-.
Qed.

(** X8. Among the descriptors that get a storage key, two get the same key
    exactly when they agree on file_type, dc_id, media_id and access_hash;
    the reference blob has no part in the key, so a file sent again with a
    fresh reference keeps its key. *)
Theorem storage_key_identifies (d1 d2 : FileId) (k1 r1 k2 r2 : string) :
  unpack_new_file_id d1 = Return (k1, r1) ->
  unpack_new_file_id d2 = Return (k2, r2) ->
  (k1 = k2 <-> identity d1 = identity d2).
Proof.
  intros H1 H2.
  apply unpack_new_file_id_return in H1 as (p1 & Hp1 & -> & _).
  apply unpack_new_file_id_return in H2 as (p2 & Hp2 & -> & _).
  split.
  - intro Hk.
    assert (Hb : forall p a b c d, pack_iiqq a b c d = Return p ->
                 Forall is_byte (zero_rle (p ++ trailer))).
    { intros p a b c d Hp. apply zero_rle_is_byte.
      - apply Forall_app. split; [eapply pack_iiqq_is_byte; eassumption|].
        exact trailer_is_byte.
      - rewrite length_app, (pack_iiqq_length _ _ _ _ _ Hp). simpl. lia. }
    apply b64_nopad_inj in Hk; [|eapply Hb; eassumption..].
    apply (f_equal zero_unrle) in Hk. rewrite !zero_unrle_zero_rle in Hk.
    apply app_inv_tail in Hk. subst p2. unfold identity.
    eapply pack_iiqq_inj; eassumption.
  - unfold identity. intro Hi. injection Hi as E1 E2 E3 E4.
    rewrite E1, E2, E3, E4 in Hp1. rewrite Hp1 in Hp2. now injection Hp2 as <-.
Qed.

Lemma storage_key_identifies_witness :
  Examples.key_a = Examples.key_a <->
  CodecSpec.identity Examples.descriptor_a
  = CodecSpec.identity
      {| file_type := 5; dc_id := 4; media_id := 123456789012; access_hash := -99;
         file_reference := [9; 9] |}.
Proof.
  apply (storage_key_identifies Examples.descriptor_a
           {| file_type := 5; dc_id := 4; media_id := 123456789012;
              access_hash := -99; file_reference := [9; 9] |}
           Examples.key_a "AQIDBA"%string Examples.key_a "CQk"%string);
    vm_compute; reflexivity.
Defined.

End CodecFacts.

(** * Further facts: saving and looking up *)

Module RouterFacts.

Import Store Router RouterMore Lookup RouterProofs.

(** X9. [save_file] stores nothing: whatever the shards report and whatever
    the record, every shard is after the call as it was before, and the
    call either raises what the codec raised or answers the error code. It
    never answers saved or duplicate. *)
Theorem save_file_never_stores (env : Env) (st : Stores) (media : Media) :
  snd (save_file env st media) = st /\
  ((exists e, Codec.unpack_new_file_id (m_file_id media) = Raise e /\
              fst (save_file env st media) = Raise e)
   \/ fst (save_file env st media) = Return "err"%string).
Proof.
  destruct (save_file_outcomes env st media) as [(e & Hu & ->) | ->]; cbn [fst snd].
  - split; [reflexivity|]. left. eauto.
  - split; [reflexivity|]. now right.
Qed.

Lemma save_loop_all_closed env models st fid fref name media :
  (forall X, In X models -> closed env X) ->
  forall calls,
    fst (save_loop env models st fid fref name media calls)
    = (Return "err"%string, st).
Proof.
  induction models as [|Y rest IH]; intros Hc calls; cbn [save_loop]; [reflexivity|].
  pose proof (Hc Y (or_introl eq_refl)) as HY. unfold closed in HY.
  assert (Hrest : forall X, In X rest -> closed env X) by (intros; apply Hc; now right).
  destruct (dbstats env Y) as [used|e]; [|now apply IH].
  replace (used <? ceiling) with false by (symmetry; apply Z.ltb_ge; lia).
  now apply IH.
Qed.

(** X11. When every shard is full or fails its size check, [save_file]
    answers the error code and stores nothing, whatever the record. *)
Theorem save_file_all_shards_closed
    (env : Env) (st : Stores) (media : Media) (fid fref : string) :
  Codec.unpack_new_file_id (m_file_id media) = Return (fid, fref) ->
  (forall X, closed env X) ->
  save_file env st media = (Return "err"%string, st).
Proof.
  intros Hu Hc. unfold save_file, save_file_run. rewrite Hu.
  apply save_loop_all_closed. intros X _. apply Hc.
Qed.

Lemma save_file_all_shards_closed_witness :
  save_file
    {| dbstats := fun X =>
         match X with
         | MediaDB2 => Raise (StoreError "timed out")
         | _ => Return ceiling
         end;
       commit_failure := fun _ => None |}
    Examples.empty_stores Examples.media_a
  = (Return "err"%string, Examples.empty_stores).
Proof.
  apply (save_file_all_shards_closed _ _ _ Examples.key_a "AQIDBA"%string).
  - vm_compute; reflexivity.
  - intros []; unfold closed; cbn; try exact I; apply Z.le_refl.
Defined.

Lemma save_loop_invalid env models st fid fref name media :
  m_file_size media = None ->
  forall calls,
    fst (save_loop env models st fid fref name media calls)
    = (Return "err"%string, st).
Proof.
  intro Hs. induction models as [|Y rest IH]; intro calls; cbn [save_loop];
    [reflexivity|].
  destruct (dbstats env Y) as [used|e]; [|apply IH].
  destruct (used <? ceiling); [|apply IH].
  unfold new_model. rewrite Hs.
  destruct (forallb declared keywords); reflexivity.
Qed.



(** *** Lookup by key *)

Lemma details_loop_empty models st key : details_loop models st key = Return [].
Proof.
  induction models as [|X rest IH]; cbn [details_loop]; [reflexivity|].
  unfold find_by_key. cbn. exact IH.
Qed.

(** X14. [get_file_details] finds nothing: for every key, stored or not, it
    returns the empty list. Its filter names the field [file_id], which no
    document class declares, so the name is not translated to the primary
    key and matches no key of a stored document. *)
Theorem get_file_details_finds_nothing (st : Stores) (key : string) :
  get_file_details st key = Return [].
Proof. unfold get_file_details. apply details_loop_empty. Qed.

End RouterFacts.

(** * Further facts: searching *)

Module SearchFacts.

Import Store Search SearchSpec SearchProofs.

Section WithRegex.

Context {RE : Regex}.

Lemma count_in_nonneg st q ms : 0 <= count_in st q ms.
Proof.
  unfold count_in.
  induction ms as [|X rest IH]; cbn [fold_right]; [lia|].
  assert (0 <= count_documents q (coll X st)) by (unfold count_documents; lia).
  lia.
Qed.

Lemma count_documents_zero q c :
  count_documents q c = 0 -> filter (selected q) c = [].
Proof.
  unfold count_documents. intro H.
  destruct (filter (selected q) c); [reflexivity | cbn [List.length] in H; lia].
Qed.

Lemma count_in_zero st q ms :
  count_in st q ms = 0 ->
  forall X, In X ms -> filter (selected q) (coll X st) = [].
Proof.
  induction ms as [|Y rest IH]; intros H X HX; [destruct HX|].
  change (count_in st q (Y :: rest))
    with (count_documents q (coll Y st) + count_in st q rest) in H.
  pose proof (count_in_nonneg st q rest) as Hn.
  assert (Hy : 0 <= count_documents q (coll Y st)) by (unfold count_documents; lia).
  destruct HX as [<-|HX].
  - apply count_documents_zero. lia.
  - apply IH; [lia | exact HX].
Qed.

Lemma nothing_fetched_nothing_selected q c (n : nat) :
  (0 < n)%nat -> firstn n (rev (filter (selected q) c)) = [] ->
  filter (selected q) c = [].
Proof.
  intros Hn H. destruct (rev (filter (selected q) c)) as [|x t] eqn:E.
  - apply (f_equal (@rev _)) in E. rewrite rev_involutive in E. exact E.
  - destruct n; [lia | discriminate H].
Qed.

Lemma count_in_of_nothing st q ms :
  (forall X, In X ms -> filter (selected q) (coll X st) = []) ->
  count_in st q ms = 0.
Proof.
  induction ms as [|Y rest IH]; intro H; [reflexivity|].
  change (count_in st q (Y :: rest))
    with (count_documents q (coll Y st) + count_in st q rest).
  rewrite IH by (intros; apply H; now right).
  unfold count_documents. rewrite (H Y (or_introl eq_refl)). reflexivity.
Qed.



(** The loop of [get_bad_files] comes to an end only when no shard holds a
    record the filter selects. *)
Lemma bad_files_loop_return ms st q :
  forall results total r t,
    0 <= total ->
    bad_files_loop ms st q results total = Return (r, t) ->
    r = results /\ t = total /\ count_in st q ms = 0.
Proof.
  induction ms as [|X rest IH]; intros results total r t Ht H;
    cbn [bad_files_loop count_in fold_right] in *.
  - injection H as <- <-. auto.
  - apply bind_ok in H as (fetched & Hf & H).
    apply to_list_return in Hf as (-> & _ & Hfirst).
    rewrite app_nil_r in H.
    assert (Hc : 0 <= count_documents q (coll X st)) by (unfold count_documents; lia).
    apply IH in H as (-> & -> & Hrest); [|lia].
    assert (Hz : count_documents q (coll X st) = 0).
    { unfold count_documents.
      destruct (filter (selected q) (coll X st)) as [|d l] eqn:E; [reflexivity|].
      exfalso. unfold find_newest_first in Hfirst.
      assert (Hpos : (0 < Z.to_nat (total + count_documents q (coll X st)))%nat).
      { unfold count_documents. rewrite E. cbn [List.length]. lia. }
      apply nothing_fetched_nothing_selected in Hfirst; [|exact Hpos].
      rewrite E in Hfirst. discriminate Hfirst. }
    unfold count_in in Hrest. rewrite Hz, Hrest. repeat split; lia.
Qed.

Lemma bad_files_loop_nothing ms st q :
  count_in st q ms = 0 ->
  forall results, bad_files_loop ms st q results 0 = Return (results, 0).
Proof.
  induction ms as [|X rest IH]; intros Hz results; cbn [bad_files_loop];
    [reflexivity|].
  pose proof (count_in_zero st q (X :: rest) Hz X (or_introl eq_refl)) as Hx.
  unfold count_documents, find_newest_first. rewrite Hx.
  cbn [List.length rev]. change (0 + Z.of_nat 0) with 0.
  unfold to_list. cbn [Z.ltb Z.compare Z.to_nat firstn build_all bind].
  rewrite app_nil_r. apply IH.
  apply count_in_of_nothing. intros Y HY.
  apply (count_in_zero st q (X :: rest) Hz). now right.
Qed.


End WithRegex.

Import Examples.




End SearchFacts.
(** * Further facts: names and the remaining-time display *)

Module NameFacts.

Lemma separator_differs x c :
  PyStr.is_separator x = false -> PyStr.is_separator c = true -> Ascii.eqb x c = false.
Proof.
  intros Hx Hc. destruct (Ascii.eqb x c) eqn:E; [|reflexivity].
  apply Ascii.eqb_eq in E. subst. congruence.
Qed.

Lemma normalized_char_not_separator x :
  PyStr.is_separator (if PyStr.is_separator x then " "%char else x) = false.
Proof. destruct (PyStr.is_separator x) eqn:E; [reflexivity | exact E]. Qed.

(** X21. The name [save_file] stores has none of the separators [_], [-],
    [.] and [+] left: each has become a space, every other character is
    kept, the length is unchanged, and normalising a second time changes
    nothing. *)
Theorem normalize_name_removes_separators (s : string) :
  (forall c, PyStr.is_separator c = true ->
             PyStr.has_char c (PyStr.normalize_name s) = false) /\
  String.length (PyStr.normalize_name s) = String.length s /\
  PyStr.normalize_name (PyStr.normalize_name s) = PyStr.normalize_name s /\
  (forall n c, String.get n s = Some c -> PyStr.is_separator c = false ->
               String.get n (PyStr.normalize_name s) = Some c).
Proof.
  induction s as [|x t (IH1 & IH2 & IH3 & IH4)].
  - repeat split; try reflexivity. intros n c H. destruct n; discriminate H.
  - cbn [PyStr.normalize_name]. split; [|split; [|split]].
    + intros c Hc. cbn [PyStr.has_char].
      rewrite (separator_differs _ c (normalized_char_not_separator x) Hc).
      now apply IH1.
    + cbn [String.length]. now rewrite IH2.
    + cbn [PyStr.normalize_name]. rewrite normalized_char_not_separator, IH3.
      reflexivity.
    + intros n c Hg Hc. destruct n as [|n]; cbn [String.get] in *.
      * injection Hg as ->. now rewrite Hc.
      * now apply IH4.
Qed.

End NameFacts.

Module PremiumFacts.

Import Premium.

(** X22. The hours, minutes and seconds shown for a remaining time: for the
    [seconds] of a [timedelta] (0 to 86399) the hours are below 24, the
    minutes and the seconds below 60, and together they make up the
    [seconds] again. *)
Theorem split_seconds_is_clock_time (seconds : Z) :
  0 <= seconds < 86400 ->
  let '(h, m, s) := split_seconds seconds in
  0 <= h < 24 /\ 0 <= m < 60 /\ 0 <= s < 60 /\
  h * 3600 + m * 60 + s = seconds.
Proof.
  intro H. unfold split_seconds, divmod.
  Z.div_mod_to_equations. lia.
Qed.

Lemma split_seconds_is_clock_time_witness :
  split_seconds 86399 = (23, 59, 59) /\
  23 * 3600 + 59 * 60 + 59 = 86399.
Proof.
  split; [reflexivity|].
  pose proof (split_seconds_is_clock_time 86399) as H.
  cbv beta iota zeta delta [split_seconds divmod] in H.
  change (86399 / 3600) with 23 in H.
  change (86399 mod 3600 / 60) with 59 in H.
  change (86399 mod 3600 mod 60) with 59 in H.
  apply H. split; [intro E; discriminate E | reflexivity].
Defined.

End PremiumFacts.
